(** * GreenSupply AI: the frontend controller (frontend/script.js)

    A shallow embedding of the browser-side controller that receives the
    fleet snapshots over the WebSocket: the module-level state
    ([truckData], [alertsList], [chartData], [totalAlertCount]), the
    message handlers that mutate it, and the few DOM elements whose
    content the handlers compute.

    Conventions.
    - A JS number is a rational ([Q]): every finite double is one, and the
      comparisons against the integer thresholds of the source are exact.
      Counters that only grow by array lengths are [nat].
    - A JS object used as a dictionary ([truckData], [mapMarkers]) is a
      [gmap string _].
    - An optional field of a wire message is an [option]; [None] reads as
      JS [undefined] (falsy).
    - The clock ([new Date().toLocaleTimeString(...)]) is an input of every
      handler, [now]; the conversion of a server timestamp to a label is
      the section variable [toLocaleTimeString].
    - A handler returns a [Completion]: the state it leaves, and whether it
      returned or threw.
    - A JS string is the string of its UTF-8 bytes. *)

From Stdlib Require Import QArith Qround Lqa ZArith Bool Ascii String Lia.
From stdpp Require Import gmap strings list fin_maps pretty.

#[local] Set Warnings "-clear-no-such-hyp".

Local Open Scope string_scope.
Local Open Scope list_scope.
Local Open Scope nat_scope.

(** ** JavaScript built-ins used by the controller *)

Module JS.

(** [arr.shift()] for its effect on the array: the first element goes. *)
Definition shift {A} (l : list A) : list A := tail l.

(** [arr.slice(-n)]: the last [n] elements (all of them when the array is
    shorter). *)
Definition slice_last {A} (n : nat) (l : list A) : list A :=
  drop (length l - n) l.

(** [arr.push(...xs)]. *)
Definition push {A} (l xs : list A) : list A := l ++ xs.

(** [Math.round]: the nearest integer, halves towards plus infinity. *)
Definition Math_round (x : Q) : Z := Qfloor (x + (1 # 2))%Q.

(** [x || d] on an optional number: [undefined] and [0] both give [d]
    when [d] is [0]. *)
Definition or_zero (x : option Q) : Q := default 0%Q x.

(** [x === 'literal'] where [x] is a field that may be absent. *)
Definition strict_eq (x : option string) (lit : string) : bool :=
  match x with
  | Some s => String.eqb s lit
  | None => false
  end.

(** [a >= b], [a <= b], [a < b], [a > b] on numbers. *)
Definition ge (a b : Q) : bool := Qle_bool b a.
Definition le (a b : Q) : bool := Qle_bool a b.
Definition lt (a b : Q) : bool := negb (Qle_bool b a).
Definition gt (a b : Q) : bool := negb (Qle_bool a b).

(** White space and line terminators removed by [String.prototype.trim].
    Of one byte: space, tab, line feed, vertical tab, form feed, carriage
    return. *)
Definition is_space (c : ascii) : bool :=
  let n := nat_of_ascii c in
  (n =? 32) || ((9 <=? n) && (n <=? 13)).

(** Of two bytes: U+00A0, the no-break space. *)
Definition is_space2 (a b : ascii) : bool :=
  (nat_of_ascii a =? 194) && (nat_of_ascii b =? 160).

(** Of three bytes: U+1680, U+2000 to U+200A, U+2028, U+2029, U+202F,
    U+205F, U+3000 and U+FEFF. *)
Definition is_space3 (a b c : ascii) : bool :=
  let a := nat_of_ascii a in
  let b := nat_of_ascii b in
  let c := nat_of_ascii c in
  ((a =? 225) && (b =? 154) && (c =? 128))
  || ((a =? 226) && (b =? 128)
      && (((128 <=? c) && (c <=? 138)) || (c =? 168) || (c =? 169) || (c =? 175)))
  || ((a =? 226) && (b =? 129) && (c =? 159))
  || ((a =? 227) && (b =? 128) && (c =? 128))
  || ((a =? 239) && (b =? 187) && (c =? 191)).

(** The string without the white space it starts with; [two] and [three]
    recognise the characters of two and three bytes. *)
Fixpoint strip (two : ascii → ascii → bool) (three : ascii → ascii → ascii → bool)
    (s : string) : string :=
  match s with
  | EmptyString => EmptyString
  | String a s1 =>
      if is_space a then strip two three s1
      else
        match s1 with
        | EmptyString => s
        | String b s2 =>
            if two a b then strip two three s2
            else
              match s2 with
              | EmptyString => s
              | String c s3 => if three a b c then strip two three s3 else s
              end
        end
  end.

Definition trim_start (s : string) : string := strip is_space2 is_space3 s.

(** The same from the end: on the reversed string the bytes of a
    character come last byte first. *)
Definition trim_end (s : string) : string :=
  String.rev (strip (λ b a, is_space2 a b) (λ c b a, is_space3 a b c) (String.rev s)).

Definition trim (s : string) : string := trim_end (trim_start s).

End JS.

(** ** Wire records (section 6 of the specification) *)

Record Truck := {
  truck_id : string;
  origin : string;
  destination : string;
  latitude : Q;
  longitude : Q;
  speed : Q;
  temperature : Q;
  fuel_level : Q;
  engine_load : Q;
  driver : option string;
  driver_license : option string;
  eta_minutes : option Q;
  remaining_distance_miles : option Q;
  risk_level : option string;
  explanation : option string
}.

Record Alert := {
  alert_truck_id : string;
  severity : string;
  title : string;
  message : string;
  ai_insight : option string;
  timestamp : option string
}.

Record Kpi := {
  active_trucks : Q;
  on_time_pct : Q;
  delayed : Q;
  high_risk : Q
}.

Record FleetRisk := {
  overall_score : Q;
  overall_level : option string;
  high_risk_count : Q
}.

Record FleetStats := {
  avg_fleet_speed : Q;
  urban_avg_speed : option Q;
  interstate_avg_speed : option Q
}.

(** One entry of [eta_history], [speed_history] or [risk_history]: the
    server's timestamp and the value ([avg_eta], [avg_speed],
    [risk_score]). *)
Record HistoryPoint := {
  h_timestamp : string;
  h_value : Q
}.

(** A parsed message: the fields the handlers read. [type] is [None] when
    the field is absent or not a string. *)
Record Message := {
  type : option string;
  trucks : option (list Truck);
  alerts : option (list Alert);
  kpi : option Kpi;
  fleet_risk : option FleetRisk;
  fleet_stats : option FleetStats;
  eta_history : option (list HistoryPoint);
  speed_history : option (list HistoryPoint);
  risk_history : option (list HistoryPoint);
  response : option string;
  token_usage : option Q;
  max_tokens : option Q;
  source : option string
}.

(** ** Client state *)

(** A chart sample [{t, v}]. *)
Record Sample := {
  t : string;
  v : Q
}.

Record ChartData := {
  eta : list Sample;
  speed_buf : list Sample;
  risk : list Sample
}.

(** A child of [#ai-chat-messages]. *)
Inductive ChatNode :=
| ChatMessage (role content time : string)
| TypingIndicator.

(** The DOM elements whose content the modelled handlers compute. Numbers
    assigned to [textContent] are kept as numbers. *)
Record Dom := {
  alert_count_badge : nat;
  stat_total_alerts : nat;
  stat_total_trucks : nat;
  risk_badge_text : option string;
  risk_badge_class : string;
  risk_circle_color : string;
  temp_compliance : list nat;
  ai_source_badge : string;
  token_used : option Q;
  ai_chat_messages : list ChatNode;
  detail_temp_bar : string;
  ai_input : string
}.

Record Client := {
  truckData : gmap string Truck;
  alertsList : list Alert;
  chartData : ChartData;
  totalAlertCount : nat;
  selectedTruckId : option string;
  mapMarkers : gmap string string;
  document : Dom
}.

(** A handler's completion: normal return, or a thrown exception, each
    with the state left behind. *)
Inductive Completion (S : Type) :=
| Normal (s : S)
| Throw (s : S).
Arguments Normal {S} s.
Arguments Throw {S} s.

(** The state after a [try { ... } catch (e) { console.error(...) }]. *)
Definition caught {S} (c : Completion S) : S :=
  match c with Normal s | Throw s => s end.

Definition returns {S} (c : Completion S) : bool :=
  match c with Normal _ => true | Throw _ => false end.

(** ** The controller *)

(** What [new Date()] gives a handler: the label of the charts
    ([hour12: false], with seconds) and the time shown in the chat. *)
Record Clock := {
  time_label : string;
  chat_time : string
}.

(** *** State updates *)

Definition with_truckData (f : gmap string Truck → gmap string Truck) (st : Client) : Client :=
  {| truckData := f (truckData st); alertsList := alertsList st;
     chartData := chartData st; totalAlertCount := totalAlertCount st;
     selectedTruckId := selectedTruckId st; mapMarkers := mapMarkers st;
     document := document st |}.

Definition with_alertsList (f : list Alert → list Alert) (st : Client) : Client :=
  {| truckData := truckData st; alertsList := f (alertsList st);
     chartData := chartData st; totalAlertCount := totalAlertCount st;
     selectedTruckId := selectedTruckId st; mapMarkers := mapMarkers st;
     document := document st |}.

Definition with_chartData (f : ChartData → ChartData) (st : Client) : Client :=
  {| truckData := truckData st; alertsList := alertsList st;
     chartData := f (chartData st); totalAlertCount := totalAlertCount st;
     selectedTruckId := selectedTruckId st; mapMarkers := mapMarkers st;
     document := document st |}.

Definition with_totalAlertCount (f : nat → nat) (st : Client) : Client :=
  {| truckData := truckData st; alertsList := alertsList st;
     chartData := chartData st; totalAlertCount := f (totalAlertCount st);
     selectedTruckId := selectedTruckId st; mapMarkers := mapMarkers st;
     document := document st |}.

Definition with_mapMarkers (f : gmap string string → gmap string string) (st : Client) : Client :=
  {| truckData := truckData st; alertsList := alertsList st;
     chartData := chartData st; totalAlertCount := totalAlertCount st;
     selectedTruckId := selectedTruckId st; mapMarkers := f (mapMarkers st);
     document := document st |}.

Definition with_document (f : Dom → Dom) (st : Client) : Client :=
  {| truckData := truckData st; alertsList := alertsList st;
     chartData := chartData st; totalAlertCount := totalAlertCount st;
     selectedTruckId := selectedTruckId st; mapMarkers := mapMarkers st;
     document := f (document st) |}.

Definition set_alert_count_badge (n : nat) (d : Dom) : Dom :=
  {| alert_count_badge := n; stat_total_alerts := stat_total_alerts d;
     stat_total_trucks := stat_total_trucks d; risk_badge_text := risk_badge_text d;
     risk_badge_class := risk_badge_class d; risk_circle_color := risk_circle_color d;
     temp_compliance := temp_compliance d; ai_source_badge := ai_source_badge d;
     token_used := token_used d; ai_chat_messages := ai_chat_messages d;
     detail_temp_bar := detail_temp_bar d; ai_input := ai_input d |}.

Definition set_stats (trucks alerts : nat) (d : Dom) : Dom :=
  {| alert_count_badge := alert_count_badge d; stat_total_alerts := alerts;
     stat_total_trucks := trucks; risk_badge_text := risk_badge_text d;
     risk_badge_class := risk_badge_class d; risk_circle_color := risk_circle_color d;
     temp_compliance := temp_compliance d; ai_source_badge := ai_source_badge d;
     token_used := token_used d; ai_chat_messages := ai_chat_messages d;
     detail_temp_bar := detail_temp_bar d; ai_input := ai_input d |}.

Definition set_risk_gauge (text : option string) (class color : string) (d : Dom) : Dom :=
  {| alert_count_badge := alert_count_badge d; stat_total_alerts := stat_total_alerts d;
     stat_total_trucks := stat_total_trucks d; risk_badge_text := text;
     risk_badge_class := class; risk_circle_color := color;
     temp_compliance := temp_compliance d; ai_source_badge := ai_source_badge d;
     token_used := token_used d; ai_chat_messages := ai_chat_messages d;
     detail_temp_bar := detail_temp_bar d; ai_input := ai_input d |}.

Definition set_temp_compliance (data : list nat) (d : Dom) : Dom :=
  {| alert_count_badge := alert_count_badge d; stat_total_alerts := stat_total_alerts d;
     stat_total_trucks := stat_total_trucks d; risk_badge_text := risk_badge_text d;
     risk_badge_class := risk_badge_class d; risk_circle_color := risk_circle_color d;
     temp_compliance := data; ai_source_badge := ai_source_badge d;
     token_used := token_used d; ai_chat_messages := ai_chat_messages d;
     detail_temp_bar := detail_temp_bar d; ai_input := ai_input d |}.

Definition set_ai_source_badge (s : string) (d : Dom) : Dom :=
  {| alert_count_badge := alert_count_badge d; stat_total_alerts := stat_total_alerts d;
     stat_total_trucks := stat_total_trucks d; risk_badge_text := risk_badge_text d;
     risk_badge_class := risk_badge_class d; risk_circle_color := risk_circle_color d;
     temp_compliance := temp_compliance d; ai_source_badge := s;
     token_used := token_used d; ai_chat_messages := ai_chat_messages d;
     detail_temp_bar := detail_temp_bar d; ai_input := ai_input d |}.

Definition set_token_used (u : option Q) (d : Dom) : Dom :=
  {| alert_count_badge := alert_count_badge d; stat_total_alerts := stat_total_alerts d;
     stat_total_trucks := stat_total_trucks d; risk_badge_text := risk_badge_text d;
     risk_badge_class := risk_badge_class d; risk_circle_color := risk_circle_color d;
     temp_compliance := temp_compliance d; ai_source_badge := ai_source_badge d;
     token_used := u; ai_chat_messages := ai_chat_messages d;
     detail_temp_bar := detail_temp_bar d; ai_input := ai_input d |}.

Definition with_chat (f : list ChatNode → list ChatNode) (d : Dom) : Dom :=
  {| alert_count_badge := alert_count_badge d; stat_total_alerts := stat_total_alerts d;
     stat_total_trucks := stat_total_trucks d; risk_badge_text := risk_badge_text d;
     risk_badge_class := risk_badge_class d; risk_circle_color := risk_circle_color d;
     temp_compliance := temp_compliance d; ai_source_badge := ai_source_badge d;
     token_used := token_used d; ai_chat_messages := f (ai_chat_messages d);
     detail_temp_bar := detail_temp_bar d; ai_input := ai_input d |}.

Definition set_detail_temp_bar (color : string) (d : Dom) : Dom :=
  {| alert_count_badge := alert_count_badge d; stat_total_alerts := stat_total_alerts d;
     stat_total_trucks := stat_total_trucks d; risk_badge_text := risk_badge_text d;
     risk_badge_class := risk_badge_class d; risk_circle_color := risk_circle_color d;
     temp_compliance := temp_compliance d; ai_source_badge := ai_source_badge d;
     token_used := token_used d; ai_chat_messages := ai_chat_messages d;
     detail_temp_bar := color; ai_input := ai_input d |}.

Definition set_ai_input (s : string) (d : Dom) : Dom :=
  {| alert_count_badge := alert_count_badge d; stat_total_alerts := stat_total_alerts d;
     stat_total_trucks := stat_total_trucks d; risk_badge_text := risk_badge_text d;
     risk_badge_class := risk_badge_class d; risk_circle_color := risk_circle_color d;
     temp_compliance := temp_compliance d; ai_source_badge := ai_source_badge d;
     token_used := token_used d; ai_chat_messages := ai_chat_messages d;
     detail_temp_bar := detail_temp_bar d; ai_input := s |}.

(** [Object.values(truckData)]: the records of the table. JS lists them
    in insertion order, the map in the order of its keys; what the
    controller computes from them (a length, counts, a sum) does not
    depend on the order. *)
Definition Object_values (m : gmap string Truck) : list Truck :=
  (map_to_list m).*2.

(** [data.trucks.forEach(t => { truckData[t.truck_id] = t; })]. *)
Definition upsert_trucks (ts : list Truck) (m : gmap string Truck) : gmap string Truck :=
  fold_left (λ acc t, <[truck_id t := t]> acc) ts m.

(** *** Maps (lines 240-308) *)

Definition getMarkerColor (riskLevel : option string) : string :=
  if JS.strict_eq riskLevel "CRITICAL" then "#ef4444"
  else if JS.strict_eq riskLevel "HIGH" then "#f97316"
  else if JS.strict_eq riskLevel "MEDIUM" then "#eab308"
  else "#3cf91a".

(** A marker is kept as the colour of its icon. *)
Definition updateMapMarkers (ts : list Truck) (st : Client) : Client :=
  with_mapMarkers
    (fold_left (λ acc t, <[truck_id t := getMarkerColor (risk_level t)]> acc) ts) st.

(** *** Charts (lines 465-519) *)

(** The three filters of the temperature-compliance doughnut. *)
Definition temp_compliant (t : Truck) : bool :=
  JS.ge (temperature t) 28 && JS.le (temperature t) 38.

Definition temp_warning (t : Truck) : bool :=
  (JS.lt (temperature t) 28 && JS.ge (temperature t) 25)
  || (JS.gt (temperature t) 38 && JS.le (temperature t) 42).

Definition temp_critical (t : Truck) : bool :=
  JS.lt (temperature t) 25 || JS.gt (temperature t) 42.

(** [[compliant || 1, warning, critical]]. *)
Definition temp_compliance_data (ts : list Truck) : list nat :=
  let compliant := length (List.filter temp_compliant ts) in
  let warning := length (List.filter temp_warning ts) in
  let critical := length (List.filter temp_critical ts) in
  [ (if compliant =? 0 then 1 else compliant); warning; critical ].

(** [buf.push(x); if (buf.length > 30) buf.shift();] *)
Definition push_sample (buf : list Sample) (x : Sample) : list Sample :=
  let buf' := JS.push buf [x] in
  if 30 <? length buf' then JS.shift buf' else buf'.

Definition avgEta (ts : list Truck) : Q :=
  if length ts =? 0 then 0%Q
  else (fold_left (λ s t, s + JS.or_zero (eta_minutes t)) ts 0 / inject_Z (Z.of_nat (length ts)))%Q.

Definition updateCharts (now : Clock) (data : Message) (st : Client) : Client :=
  let timeLabel := time_label now in
  let ts := Object_values (truckData st) in
  let avgSpeed := match fleet_stats data with Some s => avg_fleet_speed s | None => 0%Q end in
  let riskScore := match fleet_risk data with Some r => overall_score r | None => 0%Q end in
  let st := with_chartData (λ c,
    {| eta := push_sample (eta c) {| t := timeLabel; v := inject_Z (JS.Math_round (avgEta ts)) |};
       speed_buf := push_sample (speed_buf c) {| t := timeLabel; v := avgSpeed |};
       risk := push_sample (risk c) {| t := timeLabel; v := riskScore |} |}) st in
  with_document (set_temp_compliance (temp_compliance_data ts)) st.

(** The sample [updateCharts] appends to each buffer. *)
Definition eta_sample (now : Clock) (st : Client) : Sample :=
  {| t := time_label now;
     v := inject_Z (JS.Math_round (avgEta (Object_values (truckData st)))) |}.

Definition speed_sample (now : Clock) (d : Message) : Sample :=
  {| t := time_label now;
     v := match fleet_stats d with Some s => avg_fleet_speed s | None => 0%Q end |}.

Definition risk_sample (now : Clock) (d : Message) : Sample :=
  {| t := time_label now;
     v := match fleet_risk d with Some r => overall_score r | None => 0%Q end |}.

(** *** Risk gauge (lines 702-722) *)

Definition risk_badge_class_of (level : option string) : string :=
  if JS.strict_eq level "LOW" then "badge-low"
  else if JS.strict_eq level "MEDIUM" then "badge-medium"
  else if JS.strict_eq level "HIGH" then "badge-high"
  else "badge-critical".

Definition risk_color_of (level : option string) : string :=
  if JS.strict_eq level "LOW" then "#3cf91a"
  else if JS.strict_eq level "MEDIUM" then "#eab308"
  else if JS.strict_eq level "HIGH" then "#f97316"
  else "#ef4444".

Definition updateRiskGauge (risk : option FleetRisk) (st : Client) : Client :=
  match risk with
  | None => st
  | Some r =>
      let level := overall_level r in
      with_document (set_risk_gauge level
                  ("card-badge " ++ risk_badge_class_of level)%string
                  (risk_color_of level)) st
  end.

(** *** Truck detail (lines 824-860): the temperature bar *)

Definition temp_bar_color (temp : Q) : string :=
  if JS.gt temp 38 then "red" else if JS.lt temp 28 then "yellow" else "cyan".

Definition updateTruckDetail (truck : Truck) (st : Client) : Client :=
  with_document (set_detail_temp_bar ("progress-fill " ++ temp_bar_color (temperature truck))%string) st.

(** *** Analytics stats (lines 868-875) *)

Definition updateAnalyticsStats (data : Message) (st : Client) : Client :=
  with_document (set_stats (length (Object_values (truckData st))) (totalAlertCount st)) st.

(** *** AI assistant (lines 885-985) *)

(** [readyState] of the socket; [ws] itself may still be [null]. *)
Inductive ReadyState := CONNECTING | OPEN | CLOSING | CLOSED.

Definition ws_is_open (ws : option ReadyState) : bool :=
  match ws with Some OPEN => true | _ => false end.

(** What [sendAIMessage] puts on the wire: a frame on the socket
    ([JSON.stringify({ type: 'ai_question', question })]) or a request
    to the REST endpoint. *)
Record AiQuestionFrame := {
  frame_type : string;
  frame_question : string
}.

Record FetchRequest := {
  url : string;
  method : string;
  content_type : string;
  body_question : string
}.

Inductive Outbound :=
| WsSend (frame : AiQuestionFrame)
| Fetch (req : FetchRequest).

Definition addChatMessage (now : Clock) (role content : string) (st : Client) : Client :=
  with_document (with_chat (λ c, c ++ [ChatMessage role content (chat_time now)])) st.

Definition showTypingIndicator (st : Client) : Client :=
  with_document (with_chat (λ c, c ++ [TypingIndicator])) st.

(** [getElementById('typing-indicator')] finds the first one. *)
Fixpoint remove_first_typing (c : list ChatNode) : list ChatNode :=
  match c with
  | [] => []
  | TypingIndicator :: c' => c'
  | n :: c' => n :: remove_first_typing c'
  end.

Definition removeTypingIndicator (st : Client) : Client :=
  with_document (with_chat remove_first_typing) st.

(** The new state and what was sent, if anything. *)
Definition sendAIMessage (now : Clock) (ws : option ReadyState) (st : Client)
  : Client * option Outbound :=
  let question := JS.trim (ai_input (document st)) in
  if String.eqb question "" then (st, None)
  else
    let st := addChatMessage now "user" question st in
    let st := with_document (set_ai_input "") st in
    let st := showTypingIndicator st in
    if ws_is_open ws then
      (st, Some (WsSend {| frame_type := "ai_question"; frame_question := question |}))
    else
      (st, Some (Fetch {| url := "/api/ai/ask"; method := "POST";
                          content_type := "application/json";
                          body_question := question |})).

Definition handleAIResponse (now : Clock) (data : Message) (st : Client) : Client :=
  let st := removeTypingIndicator st in
  let response :=
    match response data with
    | Some r => if String.eqb r "" then "No response received." else r
    | None => "No response received."
    end in
  let st := addChatMessage now "assistant" response st in
  let st :=
    match token_usage data with
    | Some u => with_document (set_token_used (Some u)) st
    | None => st
    end in
  let badge :=
    if JS.strict_eq (source data) "gemini" then "GEMINI" else "RULE-BASED" in
  with_document (set_ai_source_badge badge) st.

(** The promise chain after [fetch]: the parsed reply goes to
    [handleAIResponse]; a failed request or an unreadable body goes to the
    [catch]. *)
Definition fetch_then (now : Clock) (reply : option Message) (st : Client) : Client :=
  match reply with
  | Some data => handleAIResponse now data st
  | None =>
      addChatMessage now "assistant"
        "Unable to connect to the AI service. Please ensure the backend is running."
        (removeTypingIndicator st)
  end.

(** ** The alert engine (section 4.3 of the specification)

    The engine runs on the server; the repository's sources hold only the
    client. *)

Module AlertEngine.

Section Engine.

Context {Rule : Type} `{Countable Rule}.

(** Whether a rule's threshold condition holds of a truck's reading. *)
Variable fires : Rule → Truck → bool.

(** The rules, each evaluated for each truck on each tick. *)
Variable rules : list Rule.

(** Modelled from the spec: the server-side alert engine, which is not in
    the sources. Section 9: the per-rule previously-fired memory per truck
    is a map from the truck id to the set of rule ids, a rule leaving the
    set only when its condition clears. *)
Local Abbreviation Memory := (gmap string (gset Rule)).

(** Modelled from the spec: the truck's memory before a tick; a truck
    not seen yet has no rule fired. *)
Definition fired_before (mem : Memory) (id : string) : gset Rule :=
  default ∅ (mem !! id).

(** Modelled from the spec: whether the rule goes from not-fired to fired
    on this reading (section 4.3). *)
Definition rising_edge (prev : gset Rule) (r : Rule) (t : Truck) : bool :=
  fires r t && bool_decide (r ∉ prev).

(** Modelled from the spec: the rules that hold of the reading, which is
    the truck's memory after the tick (section 9: cleared only when the
    condition clears). *)
Definition fired_now (t : Truck) : gset Rule :=
  list_to_set (List.filter (λ r, fires r t) rules).

(** Modelled from the spec: the alerts of one truck on one tick (section
    4.3): a rule yields an alert only when it goes from not-fired to
    fired. *)
Definition new_alerts (prev : gset Rule) (t : Truck) : list Rule :=
  List.filter (λ r, rising_edge prev r t) rules.

(** Modelled from the spec: one truck's step of a tick: its alerts are
    appended, each with its subject truck id, and its memory replaced. *)
Definition evaluate_truck (acc : Memory * list (string * Rule)) (t : Truck)
  : Memory * list (string * Rule) :=
  let prev := fired_before acc.1 (truck_id t) in
  (<[truck_id t := fired_now t]> acc.1,
   acc.2 ++ map (λ r, (truck_id t, r)) (new_alerts prev t)).

(** Modelled from the spec: one tick over the truck table (section 4.3:
    for each truck, each tick, every rule). *)
Definition tick (mem : Memory) (fleet : list Truck) : Memory * list (string * Rule) :=
  fold_left evaluate_truck fleet (mem, []).

(** Modelled from the spec: consecutive ticks, with the alerts of each. *)
Fixpoint ticks (mem : Memory) (fleets : list (list Truck)) : list (list (string * Rule)) :=
  match fleets with
  | [] => []
  | fleet :: rest => (tick mem fleet).2 :: ticks (tick mem fleet).1 rest
  end.

(** How many of the alerts are about a rule and a truck. *)
Definition alerts_for (id : string) (r : Rule) (out : list (string * Rule)) : nat :=
  length (List.filter (λ a, bool_decide (a = (id, r))) out).

(** The truck is in the table, once, and the rule holds of its reading. *)
Definition rule_holds (id : string) (r : Rule) (fleet : list Truck) : Prop :=
  NoDup (map truck_id fleet) ∧ ∃ t, t ∈ fleet ∧ truck_id t = id ∧ fires r t = true.

End Engine.

(** Modelled from the spec: the threshold rules section 4.3 names
    (temperature outside [28,38]; fuel below 15 percent), an instance for
    running the engine. *)
Inductive ThresholdRule := TemperatureRange | FuelLow.

#[global] Instance ThresholdRule_eq_dec : EqDecision ThresholdRule.
Proof. solve_decision. Defined.

#[global] Instance ThresholdRule_countable : Countable ThresholdRule.
Proof.
  refine (inj_countable' (λ r, match r with TemperatureRange => 0 | FuelLow => 1 end)
                         (λ n, match n with 0 => TemperatureRange | _ => FuelLow end) _).
  intros []; reflexivity.
Defined.

(** Modelled from the spec: when each of them fires (section 4.3). *)
Definition threshold_fires (r : ThresholdRule) (t : Truck) : bool :=
  match r with
  | TemperatureRange => JS.lt (temperature t) 28 || JS.gt (temperature t) 38
  | FuelLow => JS.lt (fuel_level t) 15
  end.

End AlertEngine.

(** ** The controller's message handlers *)

(** *** Message handlers (lines 536-668)

    The calls that only render ([addSystemLog], [updateKPIs],
    [updateFleetList], [updateDashboardAlerts], [updateAlertsPage],
    [updateSpeedDisplay]) write HTML from the state and leave it as it is;
    they are left out. Reading [data.trucks] when the array is absent
    throws a [TypeError]; it is the first thing either handler does. *)

Section Handlers.

(** [new Date(ts).toLocaleTimeString('en-US', {hour12: false, ...})]. *)
Variable toLocaleTimeString : string → string.

Definition history_samples (round : bool) (h : option (list HistoryPoint)) : list Sample :=
  match h with
  | None => []
  | Some hs =>
      map (λ p, {| t := toLocaleTimeString (h_timestamp p);
                   v := if round then inject_Z (JS.Math_round (h_value p)) else h_value p |}) hs
  end.

Definition handleInitialState (now : Clock) (data : Message) (st : Client)
  : Completion Client :=
  match trucks data with
  | None => Throw st
  | Some ts =>
      let st := with_truckData (upsert_trucks ts) st in
      let st := with_alertsList (λ _, default [] (alerts data)) st in
      let st := updateMapMarkers ts st in
      let st := updateRiskGauge (fleet_risk data) st in
      let st := updateAnalyticsStats data st in
      let st := with_chartData (λ c,
        {| eta := JS.push (eta c) (history_samples true (eta_history data));
           speed_buf := JS.push (speed_buf c) (history_samples false (speed_history data));
           risk := JS.push (risk c) (history_samples false (risk_history data)) |}) st in
      Normal (updateCharts now data st)
  end.

Definition add_new_alerts (data : Message) (st : Client) : Client :=
  match alerts data with
  | Some (a :: new) =>
      let new := a :: new in
      let st := with_alertsList (λ l,
        let l := JS.push l new in
        if 200 <? length l then JS.slice_last 200 l else l) st in
      with_totalAlertCount (λ n, n + length new) st
  | _ => st
  end.

Definition handleStreamUpdate (now : Clock) (data : Message) (st : Client)
  : Completion Client :=
  match trucks data with
  | None => Throw st
  | Some ts =>
      let st := with_truckData (upsert_trucks ts) st in
      let st := add_new_alerts data st in
      let st := updateMapMarkers ts st in
      let st := updateRiskGauge (fleet_risk data) st in
      let st := updateCharts now data st in
      let st := updateAnalyticsStats data st in
      let st :=
        match selectedTruckId st with
        | Some id =>
            if String.eqb id "" then st
            else match truckData st !! id with
                 | Some truck => updateTruckDetail truck st
                 | None => st
                 end
        | None => st
        end in
      Normal (with_document (set_alert_count_badge (totalAlertCount st)) st)
  end.

Definition handleMessage (now : Clock) (data : Message) (st : Client)
  : Completion Client :=
  if JS.strict_eq (type data) "initial_state" then handleInitialState now data st
  else if JS.strict_eq (type data) "stream_update" then handleStreamUpdate now data st
  else if JS.strict_eq (type data) "ai_response" then Normal (handleAIResponse now data st)
  else if JS.strict_eq (type data) "pong" then Normal st
  else Normal st.

(** What [JSON.parse(event.data)] gives: a [SyntaxError], [null], or a
    value whose fields are read as a [Message] (a number, a string or an
    array has none of them). *)
Inductive Parsed :=
| SyntaxError
| JsonNull
| JsonValue (data : Message).

(** The body of the [try] in [ws.onmessage]. *)
Definition onmessage_try (now : Clock) (ev : Parsed) (st : Client) : Completion Client :=
  match ev with
  | SyntaxError => Throw st
  | JsonNull => Throw st
  | JsonValue data => handleMessage now data st
  end.

(** [ws.onmessage]: the [catch] logs and returns. *)
Definition ws_onmessage (now : Clock) (ev : Parsed) (st : Client) : Completion Client :=
  Normal (caught (onmessage_try now ev st)).

(** A run of the controller over the frames of one session. *)
Definition run (evs : list (Clock * Parsed)) (st : Client) : Client :=
  fold_left (λ s e, caught (ws_onmessage e.1 e.2 s)) evs st.

(** The module-level state when the script is loaded, over the page's
    initial DOM. *)
Definition initial_client (d : Dom) : Client :=
  {| truckData := ∅; alertsList := []; chartData := {| eta := []; speed_buf := []; risk := [] |};
     totalAlertCount := 0; selectedTruckId := None; mapMarkers := ∅; document := d |}.

(** The frames of a session as the socket delivers them. *)
Definition frames (ms : list (Clock * Message)) : list (Clock * Parsed) :=
  map (λ m, (m.1, JsonValue m.2)) ms.

(** A [stream_update] as section 6 has it: the type tag and the truck
    array. *)
Definition is_stream_update (m : Message) : bool :=
  JS.strict_eq (type m) "stream_update" && bool_decide (is_Some (trucks m)).

(** The alerts a frame carries ([data.alerts], none when absent). *)
Definition carried_alerts (m : Message) : list Alert := default [] (alerts m).


(** *** The truck table as a value *)

(** The table a trucks array lists: its records by [truck_id], the later
    of two with the same id. *)
Definition table_of (ts : list Truck) : gmap string Truck := upsert_trucks ts ∅.

(** The ids of a trucks array. *)
Definition ids (ts : list Truck) : gset string := list_to_set (map truck_id ts).

(** A frame that carries trucks carries only trucks of the fleet. *)
Definition within_fleet (fleet : gset string) (m : Message) : Prop :=
  ∀ us, trucks m = Some us → ids us ⊆ fleet.

(** ** Sample data *)

Definition noon : Clock := {| time_label := "12:00:00"; chat_time := "12:00 PM" |}.

Definition blank_page : Dom :=
  {| alert_count_badge := 0; stat_total_alerts := 0; stat_total_trucks := 0;
     risk_badge_text := None; risk_badge_class := "card-badge badge-low";
     risk_circle_color := ""; temp_compliance := [80; 15; 5];
     ai_source_badge := ""; token_used := None; ai_chat_messages := [];
     detail_temp_bar := ""; ai_input := "" |}.

Definition truck_at (id : string) (temp : Q) (level : option string) : Truck :=
  {| truck_id := id; origin := "Chicago"; destination := "Denver";
     latitude := 41; longitude := -87; speed := 60; temperature := temp;
     fuel_level := 70; engine_load := 50; driver := Some "A. Driver";
     driver_license := Some "D-100"; eta_minutes := Some 120%Q;
     remaining_distance_miles := Some 400%Q; risk_level := level;
     explanation := None |}.

Definition alert_of (id : string) : Alert :=
  {| alert_truck_id := id; severity := "warning"; title := "Temperature";
     message := "Out of range"; ai_insight := None; timestamp := None |}.

(** A message with no field but its type. *)
Definition bare (ty : option string) : Message :=
  {| type := ty; trucks := None; alerts := None; kpi := None; fleet_risk := None;
     fleet_stats := None; eta_history := None; speed_history := None;
     risk_history := None; response := None; token_usage := None;
     max_tokens := None; source := None |}.

Definition stream_update_of (ts : list Truck) (new : list Alert) : Message :=
  {| type := Some "stream_update"; trucks := Some ts; alerts := Some new; kpi := None;
     fleet_risk := None; fleet_stats := None; eta_history := None;
     speed_history := None; risk_history := None; response := None;
     token_usage := None; max_tokens := None; source := None |}.

Definition initial_state_of (ts : list Truck) (h : list HistoryPoint) : Message :=
  {| type := Some "initial_state"; trucks := Some ts; alerts := Some []; kpi := None;
     fleet_risk := None; fleet_stats := None; eta_history := Some h;
     speed_history := Some h; risk_history := Some h; response := None;
     token_usage := None; max_tokens := None; source := None |}.

Definition ai_response_of (text src : string) : Message :=
  {| type := Some "ai_response"; trucks := None; alerts := None; kpi := None;
     fleet_risk := None; fleet_stats := None; eta_history := None;
     speed_history := None; risk_history := None; response := Some text;
     token_usage := None; max_tokens := None; source := Some src |}.

(** The label of a server timestamp, for running the handlers: the
    timestamp as it is. *)
Definition label_as_is (ts : string) : string := ts.

(** The rules of a running engine. *)
Definition threshold_rules : list AlertEngine.ThresholdRule :=
  [AlertEngine.TemperatureRange; AlertEngine.FuelLow].

(** A full server history: 30 points. *)
Definition full_history : list HistoryPoint :=
  replicate 30 {| h_timestamp := "2025-01-01T12:00:00"; h_value := 42 |}.

(** ** The rest of the controller: what is drawn from the state *)

(** [s.toUpperCase()], ASCII letters. *)
Definition upper_ascii (c : ascii) : ascii :=
  let n := nat_of_ascii c in
  if (97 <=? n) && (n <=? 122) then ascii_of_nat (n - 32) else c.

Fixpoint toUpperCase (s : string) : string :=
  match s with
  | EmptyString => EmptyString
  | String c s' => String (upper_ascii c) (toUpperCase s')
  end.

(** *** Utilities (lines 1080-1091) *)

(** What [timeAgo] returns; [DaysAgoNaN] is the text [NaN days ago] of a
    timestamp that [new Date] cannot read. *)
Inductive Ago :=
| JustNow
| SecondsAgo (n : Z)
| MinutesAgo (n : Z)
| HoursAgo (n : Z)
| DaysAgo (n : Z)
| DaysAgoNaN.

Definition ago_text (a : Ago) : string :=
  match a with
  | JustNow => "Just now"
  | SecondsAgo n => pretty n ++ " seconds ago"
  | MinutesAgo n => pretty n ++ " minutes ago"
  | HoursAgo n => pretty n ++ " hours ago"
  | DaysAgo n => pretty n ++ " days ago"
  | DaysAgoNaN => "NaN days ago"
  end.

(** The branches of [timeAgo] on [diff], the age in whole seconds. *)
Definition ago_of_diff (diff : Z) : Ago :=
  if (diff <? 10)%Z then JustNow
  else if (diff <? 60)%Z then SecondsAgo diff
  else if (diff <? 3600)%Z then MinutesAgo (diff / 60)
  else if (diff <? 86400)%Z then HoursAgo (diff / 3600)
  else DaysAgo (diff / 86400).

Section Views.

(** [new Date(timestamp)] in milliseconds; [None] is an invalid date. *)
Variable Date_parse : string → option Z.

(** [now] is [new Date()] in milliseconds. An absent or empty timestamp is
    falsy. *)
Definition timeAgo (now : Z) (timestamp : option string) : Ago :=
  match timestamp with
  | None => JustNow
  | Some ts =>
      if String.eqb ts "" then JustNow
      else match Date_parse ts with
           | None => DaysAgoNaN
           | Some then_ => ago_of_diff ((now - then_) / 1000)
           end
  end.

(** *** Dashboard alerts and the alerts page (lines 732-785) *)

(** [badge-${severity === 'critical' ? 'critical' : severity === 'warning' ? 'medium' : 'low'}] *)
Definition severity_badge (sev : string) : string :=
  if String.eqb sev "critical" then "critical"
  else if String.eqb sev "warning" then "medium" else "low".

(** The icon of a card on the alerts page. *)
Definition severity_icon (sev : string) : string :=
  if String.eqb sev "critical" then "error"
  else if String.eqb sev "warning" then "warning" else "info".

(** The level [handleStreamUpdate] logs an alert at. *)
Definition severity_log_level (sev : string) : string :=
  if String.eqb sev "critical" then "error"
  else if String.eqb sev "warning" then "warn" else "info".

(** One [.alert-item] of the dashboard. *)
Record AlertItem := {
  item_severity : string;
  item_title : string;
  item_badge : string;
  item_badge_text : string;
  item_message : string;
  item_time : Ago
}.

(** One [.alert-card-full] of the alerts page. *)
Record AlertCard := {
  card_severity : string;
  card_icon : string;
  card_title : string;
  card_badge : string;
  card_badge_text : string;
  card_insight : string;
  card_time : Ago
}.

Definition alert_item (now : Z) (a : Alert) : AlertItem :=
  {| item_severity := severity a; item_title := title a;
     item_badge := ("badge-" ++ severity_badge (severity a))%string;
     item_badge_text := toUpperCase (severity a);
     item_message := message a;
     item_time := timeAgo now (timestamp a) |}.

(** [alert.ai_insight || alert.message] *)
Definition insight_or_message (a : Alert) : string :=
  match ai_insight a with
  | Some i => if String.eqb i "" then message a else i
  | None => message a
  end.

Definition alert_card (now : Z) (a : Alert) : AlertCard :=
  {| card_severity := severity a; card_icon := severity_icon (severity a);
     card_title := title a;
     card_badge := ("badge-" ++ severity_badge (severity a))%string;
     card_badge_text := toUpperCase (severity a);
     card_insight := insight_or_message a;
     card_time := timeAgo now (timestamp a) |}.

(** The elements the two functions write. *)
Record AlertViews := {
  dashboard_alerts : list AlertItem;
  alerts_count_label : string;
  alerts_full_list : list AlertCard;
  alerts_vehicle_count : nat
}.

Definition updateDashboardAlerts (now : Z) (st : Client) (view : AlertViews) : AlertViews :=
  let recent := rev (JS.slice_last 8 (alertsList st)) in
  if length recent =? 0 then view
  else {| dashboard_alerts := map (alert_item now) recent;
          alerts_count_label := (pretty (length recent) ++ " new")%string;
          alerts_full_list := alerts_full_list view;
          alerts_vehicle_count := alerts_vehicle_count view |}.

Definition updateAlertsPage (now : Z) (st : Client) (view : AlertViews) : AlertViews :=
  let shown := rev (JS.slice_last 20 (alertsList st)) in
  if length shown =? 0 then view
  else {| dashboard_alerts := dashboard_alerts view;
          alerts_count_label := alerts_count_label view;
          alerts_full_list := map (alert_card now) shown;
          alerts_vehicle_count := size (truckData st) |}.

End Views.

(** *** System logs (lines 1059-1077) *)

Record LogEntry := {
  log_time : string;
  log_level_class : string;
  log_level_text : string;
  log_message : string
}.

(** [while (container.children.length > 50) container.removeChild(container.lastChild)],
    the loop bounded by the number of children. *)
Fixpoint limit_logs (fuel : nat) (entries : list LogEntry) : list LogEntry :=
  match fuel with
  | 0 => entries
  | S fuel' =>
      if 50 <? length entries then limit_logs fuel' (removelast entries) else entries
  end.

Definition log_level_class_of (level : string) : string :=
  if String.eqb level "error" then "error"
  else if String.eqb level "warn" then "warn"
  else if String.eqb level "success" then "success" else "info".

(** [container] is [None] when [#system-logs] is not in the page. *)
Definition addSystemLog (time level msg : string) (container : option (list LogEntry))
  : option (list LogEntry) :=
  match container with
  | None => None
  | Some entries =>
      let entry := {| log_time := time; log_level_class := log_level_class_of level;
                      log_level_text := toUpperCase level; log_message := msg |} in
      let entries := entry :: entries in
      Some (limit_logs (length entries) entries)
  end.

(** The log calls of [handleStreamUpdate] (lines 646-649), one per new
    alert. *)
Definition alert_log_message (a : Alert) : string :=
  ("[" ++ alert_truck_id a ++ "] " ++ title a)%string.

Definition log_new_alerts (time : string) (new : list Alert) (container : option (list LogEntry))
  : option (list LogEntry) :=
  fold_left (λ c a, addSystemLog time (severity_log_level (severity a)) (alert_log_message a) c)
            new container.

(** The entry [handleStreamUpdate] logs for an alert. *)
Definition alert_log_entry (time : string) (a : Alert) : LogEntry :=
  {| log_time := time;
     log_level_class := log_level_class_of (severity_log_level (severity a));
     log_level_text := toUpperCase (severity_log_level (severity a));
     log_message := alert_log_message a |}.

(** *** Fleet list and truck selection (lines 787-822) *)

Definition with_selectedTruckId (f : option string → option string) (st : Client) : Client :=
  {| truckData := truckData st; alertsList := alertsList st;
     chartData := chartData st; totalAlertCount := totalAlertCount st;
     selectedTruckId := f (selectedTruckId st); mapMarkers := mapMarkers st;
     document := document st |}.

(** One [.fleet-item] of the tracking page. *)
Record FleetItem := {
  fleet_truck_id : string;
  fleet_status : string;
  fleet_active : bool;
  fleet_origin : string;
  fleet_destination : string;
  fleet_speed : Z;
  fleet_eta : Z
}.

Definition fleet_status_class (level : option string) : string :=
  if JS.strict_eq level "CRITICAL" then "critical"
  else if JS.strict_eq level "HIGH" then "delayed" else "on-time".

Definition fleet_item (selected : option string) (t : Truck) : FleetItem :=
  {| fleet_truck_id := truck_id t;
     fleet_status := fleet_status_class (risk_level t);
     fleet_active := JS.strict_eq selected (truck_id t);
     fleet_origin := origin t; fleet_destination := destination t;
     fleet_speed := JS.Math_round (speed t);
     fleet_eta := JS.Math_round (JS.or_zero (eta_minutes t)) |}.

(** [container] is [None] when [#fleet-list-items] is not in the page. *)
Definition updateFleetList (st : Client) (container : option (list FleetItem))
  : option (list FleetItem) :=
  match container with
  | None => None
  | Some _ => Some (map (fleet_item (selectedTruckId st)) (Object_values (truckData st)))
  end.

(** [selectTruck], on the state: the id is kept even when no such truck
    is in the table. *)
Definition selectTruck (truckId : string) (st : Client) : Client :=
  let st := with_selectedTruckId (λ _, Some truckId) st in
  match truckData st !! truckId with
  | None => st
  | Some truck => updateTruckDetail truck st
  end.

(** Every record of the table sits under its own id. *)
Definition keyed_by_id (m : gmap string Truck) : Prop :=
  ∀ k t, m !! k = Some t → truck_id t = k.

(** The colour of a truck's marker. *)
Definition marker_color (t : Truck) : string := getMarkerColor (risk_level t).

(** *** Progress bars (lines 828-837, 929-933) *)

(** [Math.min(100, x)] *)
Definition min_100 (x : Q) : Q := if Qle_bool x 100 then x else 100%Q.

Definition speed_bar_width (t : Truck) : Q := min_100 (speed t / 85 * 100)%Q.

Definition temp_bar_width (t : Truck) : Q := min_100 (temperature t / 50 * 100)%Q.

Definition fuel_bar_color (t : Truck) : string :=
  if JS.lt (fuel_level t) 20 then "red"
  else if JS.lt (fuel_level t) 40 then "yellow" else "blue".

(** [data.max_tokens || 10000]: an absent limit and a limit of 0 both give
    10000. *)
Definition max_tokens_or_default (data : Message) : Q :=
  match max_tokens data with
  | Some m => if Qeq_bool m 0 then 10000%Q else m
  | None => 10000%Q
  end.

(** The width of [#token-bar-fill] that [handleAIResponse] sets, when it
    sets one. *)
Definition token_bar_width (data : Message) : option Q :=
  match token_usage data with
  | Some u => Some (min_100 (u / max_tokens_or_default data * 100)%Q)
  | None => None
  end.

(** *** KPI animation (lines 679-699) *)

(** The text of the element after each of the 15 ticks of the interval;
    [current] is [parseInt(el.textContent) || 0]. No interval is started
    when [current === newValue]. The last tick writes [newValue] as it
    is, over the rounded value. *)
Definition animateValue (current : Z) (newValue : Q) : list Q :=
  if Qeq_bool (inject_Z current) newValue then []
  else
    let diff := (newValue - inject_Z current)%Q in
    let stepVal := (diff / 15)%Q in
    map (λ step : nat,
           if 15 <=? step then newValue
           else inject_Z (JS.Math_round (inject_Z current + stepVal * inject_Z (Z.of_nat step))%Q))
        (seq 1 15).

(** *** Settings (lines 19-24, 85-110, 997-1007) *)

Record Settings := {
  wsUrl : string;
  predictiveRerouting : bool;
  autonomousAlerts : bool;
  fuelOptimization : bool
}.

Definition default_settings : Settings :=
  {| wsUrl := "ws://localhost:8000/ws"; predictiveRerouting := true;
     autonomousAlerts := true; fuelOptimization := false |}.

(** The [settings] field of the user's document: any of the four may be
    missing. *)
Record SavedSettings := {
  saved_wsUrl : option string;
  saved_predictiveRerouting : option bool;
  saved_autonomousAlerts : option bool;
  saved_fuelOptimization : option bool
}.

(** What [saveUserSettings(settings)] stores. *)
Definition stored (s : Settings) : SavedSettings :=
  {| saved_wsUrl := Some (wsUrl s);
     saved_predictiveRerouting := Some (predictiveRerouting s);
     saved_autonomousAlerts := Some (autonomousAlerts s);
     saved_fuelOptimization := Some (fuelOptimization s) |}.

(** [loadSettingsFromDB], on [settings]; [saved] is what
    [loadUserSettings()] resolved to, [None] for [null]. *)
Definition loadSettingsFromDB (saved : option SavedSettings) (s : Settings) : Settings :=
  match saved with
  | None => s
  | Some v =>
      {| wsUrl := match saved_wsUrl v with
                  | Some u => if String.eqb u "" then wsUrl s else u
                  | None => wsUrl s
                  end;
         predictiveRerouting := default (predictiveRerouting s) (saved_predictiveRerouting v);
         autonomousAlerts := default (autonomousAlerts s) (saved_autonomousAlerts v);
         fuelOptimization := default (fuelOptimization s) (saved_fuelOptimization v) |}
  end.

(** [saveSettings], on [settings]: the URL field of the form is taken as
    it is. *)
Definition saveSettings (url_field : string) (s : Settings) : Settings :=
  {| wsUrl := url_field; predictiveRerouting := predictiveRerouting s;
     autonomousAlerts := autonomousAlerts s; fuelOptimization := fuelOptimization s |}.

(** *** The chat *)

Definition is_typing (n : ChatNode) : bool :=
  match n with TypingIndicator => true | ChatMessage _ _ _ => false end.

(** The typing indicators in the chat. *)
Definition typing_count (c : list ChatNode) : nat := length (List.filter is_typing c).

(** The messages of the chat, in order. *)
Definition chat_messages (c : list ChatNode) : list ChatNode :=
  List.filter (λ n, negb (is_typing n)) c.

(** What the assistant is shown to say for a reply. *)
Definition response_text (data : Message) : string :=
  match response data with
  | Some r => if String.eqb r "" then "No response received." else r
  | None => "No response received."
  end.

(** *** Reconnection (lines 522-565) *)

(** The socket side of the module state: the interval that
    [reconnectTimer] holds, the intervals that are running (by the id
    [setInterval] gave), the sockets opened so far, and what
    [#ws-status] shows. *)
Record Connection := {
  reconnectTimer : option nat;
  intervals : gset nat;
  next_interval : nat;
  sockets_opened : nat;
  status_connected : bool
}.

Inductive SocketEvent :=
| OnOpen
| OnClose
| OnError
| IntervalFires (id : nat).

(** [connectWebSocket()]: [ws = new WebSocket(url)]. *)
Definition connectWebSocket (c : Connection) : Connection :=
  {| reconnectTimer := reconnectTimer c; intervals := intervals c;
     next_interval := next_interval c; sockets_opened := S (sockets_opened c);
     status_connected := status_connected c |}.

Definition setConnectionStatus (connected : bool) (c : Connection) : Connection :=
  {| reconnectTimer := reconnectTimer c; intervals := intervals c;
     next_interval := next_interval c; sockets_opened := sockets_opened c;
     status_connected := connected |}.

Definition scheduleReconnect (c : Connection) : Connection :=
  match reconnectTimer c with
  | Some _ => c
  | None =>
      {| reconnectTimer := Some (next_interval c);
         intervals := {[next_interval c]} ∪ intervals c;
         next_interval := S (next_interval c); sockets_opened := sockets_opened c;
         status_connected := status_connected c |}
  end.

Definition ws_onopen (c : Connection) : Connection :=
  let c := setConnectionStatus true c in
  match reconnectTimer c with
  | Some id =>
      {| reconnectTimer := None; intervals := intervals c ∖ {[id]};
         next_interval := next_interval c; sockets_opened := sockets_opened c;
         status_connected := status_connected c |}
  | None => c
  end.

Definition ws_onclose (c : Connection) : Connection :=
  scheduleReconnect (setConnectionStatus false c).

Definition ws_onerror (c : Connection) : Connection := setConnectionStatus false c.

(** An interval that was cleared does not fire. *)
Definition socket_step (c : Connection) (e : SocketEvent) : Connection :=
  match e with
  | OnOpen => ws_onopen c
  | OnClose => ws_onclose c
  | OnError => ws_onerror c
  | IntervalFires id => if decide (id ∈ intervals c) then connectWebSocket c else c
  end.

(** The page after [DOMContentLoaded] has called [connectWebSocket]. *)
Definition first_connection : Connection :=
  {| reconnectTimer := None; intervals := ∅; next_interval := 0;
     sockets_opened := 1; status_connected := false |}.

(** *** The page as a whole: frames and clicks *)

(** What happens to the page: a frame arrives, or the user picks a truck
    (a click on a marker or on a fleet item, or a search hit). *)
Inductive PageEvent :=
| Inbound (now : Clock) (ev : Parsed)
| SelectTruck (truckId : string).

Definition page_step (st : Client) (e : PageEvent) : Client :=
  match e with
  | Inbound now ev => caught (ws_onmessage now ev st)
  | SelectTruck truckId => selectTruck truckId st
  end.

Definition page_run (es : list PageEvent) (st : Client) : Client :=
  fold_left page_step es st.

(** The connection after a run of socket events. *)
Definition socket_run (es : list SocketEvent) (c : Connection) : Connection :=
  fold_left socket_step es c.

(** ** The auth service (frontend/auth.js) *)

(** *** Error messages (lines 253-270) *)




(** *** The auth page (lines 272-290) *)











(** *** Google sign-in (lines 53-100) *)




(** *** Initials (lines 127-128; script.js lines 73-74) *)

(** [s.split(' ')] *)
Fixpoint split_spaces (s : string) : list string :=
  match s with
  | EmptyString => [EmptyString]
  | String c s' =>
      if Ascii.eqb c " " then EmptyString :: split_spaces s'
      else match split_spaces s' with
           | w :: ws => String c w :: ws
           | [] => [String c EmptyString]
           end
  end.

(** [n[0]] as [join('')] prints it: nothing for an empty word. *)
Definition first_letter (w : string) : string :=
  match w with
  | EmptyString => EmptyString
  | String c _ => String c EmptyString
  end.

(** [name.split(' ').map(n => n[0]).join('').toUpperCase().slice(0, 2)] *)
Definition initials_of (name : string) : string :=
  String.substring 0 2 (toUpperCase (String.concat "" (map first_letter (split_spaces name)))).

(** [profile.initials || '--'], what the avatar shows. *)
Definition avatar_text (initials : string) : string :=
  if String.eqb initials "" then "--" else initials.


(** Whether a string has a space in it, and whether it has nothing else. *)
Fixpoint has_space (s : string) : bool :=
  match s with
  | EmptyString => false
  | String c s' => Ascii.eqb c " " || has_space s'
  end.

Fixpoint only_spaces (s : string) : bool :=
  match s with
  | EmptyString => true
  | String c s' => Ascii.eqb c " " && only_spaces s'
  end.

(** The dates of the sample data, for running [timeAgo]: every timestamp
    reads as the epoch. *)
Definition parse_as_epoch (ts : string) : option Z := Some 0%Z.

Definition blank_views : AlertViews :=
  {| dashboard_alerts := []; alerts_count_label := "0 new";
     alerts_full_list := []; alerts_vehicle_count := 0 |}.

(** ** Proof steps

    Case analysis on every [match] of the goal, and the step that shows a
    field untouched by the rendering calls. *)

Ltac case_matches :=
  repeat match goal with
         | |- context [match ?x with _ => _ end] => destruct x
         end.

Ltac frame :=
  unfold updateAnalyticsStats, updateCharts, updateRiskGauge, updateMapMarkers,
    updateTruckDetail;
  case_matches; reflexivity.

(** * Properties of the controller *)

(** ** Arrays *)

Lemma slice_last_length {A} (n : nat) (l : list A) :
  length (JS.slice_last n l) = min n (length l).
Proof. unfold JS.slice_last. rewrite length_drop. lia. Qed.

Lemma slice_last_all {A} (n : nat) (l : list A) :
  length l ≤ n → JS.slice_last n l = l.
Proof.
  intros Hle. unfold JS.slice_last.
  replace (length l - n) with 0 by lia. apply drop_0.
Qed.

(** Trimming to the last [n] commutes with appending: what was evicted
    earlier would be evicted anyway. *)
Lemma slice_last_app {A} (n : nat) (l xs : list A) :
  JS.slice_last n (JS.slice_last n l ++ xs) = JS.slice_last n (l ++ xs).
Proof.
  unfold JS.slice_last. rewrite !length_app, length_drop.
  destruct (decide (length l ≤ n)) as [Hle|Hgt].
  - replace (length l - n) with 0 by lia.
    rewrite Nat.sub_0_r, drop_0. reflexivity.
  - rewrite !drop_app, length_drop, drop_drop.
    f_equal; f_equal; lia.
Qed.

Lemma slice_last_suffix {A} (n : nat) (l : list A) :
  JS.slice_last n l `suffix_of` l.
Proof. apply suffix_drop. Qed.

(** ** What each handler leaves alone *)

Lemma add_new_alerts_alertsList (d : Message) (st : Client) :
  length (alertsList st) ≤ 200 →
  alertsList (add_new_alerts d st) = JS.slice_last 200 (alertsList st ++ carried_alerts d).
Proof.
  intros Hle. unfold add_new_alerts, carried_alerts.
  destruct (alerts d) as [[|a new]|]; simpl.
  - rewrite app_nil_r. symmetry. apply slice_last_all, Hle.
  - unfold JS.push. destruct (Nat.ltb_spec 200 (length (alertsList st ++ a :: new))) as [Hgt|Hfit].
    + reflexivity.
    + symmetry. apply slice_last_all, Hfit.
  - rewrite app_nil_r. symmetry. apply slice_last_all, Hle.
Qed.

Lemma add_new_alerts_totalAlertCount (d : Message) (st : Client) :
  totalAlertCount (add_new_alerts d st) = totalAlertCount st + length (carried_alerts d).
Proof.
  unfold add_new_alerts, carried_alerts.
  destruct (alerts d) as [[|a new]|]; simpl; lia.
Qed.

Lemma add_new_alerts_truckData (d : Message) (st : Client) :
  truckData (add_new_alerts d st) = truckData st.
Proof. unfold add_new_alerts. case_matches; reflexivity. Qed.

Lemma add_new_alerts_chartData (d : Message) (st : Client) :
  chartData (add_new_alerts d st) = chartData st.
Proof. unfold add_new_alerts. case_matches; reflexivity. Qed.

Lemma handleStreamUpdate_alertsList (now : Clock) (d : Message) (st : Client) (ts : list Truck) :
  trucks d = Some ts →
  alertsList (caught (handleStreamUpdate now d st)) = alertsList (add_new_alerts d st).
Proof.
  intros Hts. unfold handleStreamUpdate. rewrite Hts. cbn [caught].
  assert (alertsList (add_new_alerts d (with_truckData (upsert_trucks ts) st))
          = alertsList (add_new_alerts d st)) as <-.
  { unfold add_new_alerts. case_matches; reflexivity. }
  frame.
Qed.

Lemma handleStreamUpdate_totalAlertCount (now : Clock) (d : Message) (st : Client) (ts : list Truck) :
  trucks d = Some ts →
  totalAlertCount (caught (handleStreamUpdate now d st))
  = totalAlertCount st + length (carried_alerts d).
Proof.
  intros Hts. rewrite <- add_new_alerts_totalAlertCount.
  unfold handleStreamUpdate. rewrite Hts. cbn [caught].
  assert (totalAlertCount (add_new_alerts d (with_truckData (upsert_trucks ts) st))
          = totalAlertCount (add_new_alerts d st)) as <-.
  { unfold add_new_alerts. case_matches; reflexivity. }
  frame.
Qed.

Lemma handleStreamUpdate_truckData (now : Clock) (d : Message) (st : Client) (ts : list Truck) :
  trucks d = Some ts →
  truckData (caught (handleStreamUpdate now d st)) = upsert_trucks ts (truckData st).
Proof.
  intros Hts. unfold handleStreamUpdate. rewrite Hts. cbn [caught].
  assert (truckData (add_new_alerts d (with_truckData (upsert_trucks ts) st))
          = upsert_trucks ts (truckData st)) as <-.
  { rewrite add_new_alerts_truckData. reflexivity. }
  frame.
Qed.

(** The badge and the analytics stat both show the counter. *)
Lemma handleStreamUpdate_badges (now : Clock) (d : Message) (st : Client) (ts : list Truck) :
  trucks d = Some ts →
  let st' := caught (handleStreamUpdate now d st) in
  alert_count_badge (document st') = totalAlertCount st'
  ∧ stat_total_alerts (document st') = totalAlertCount st'.
Proof.
  intros Hts. unfold handleStreamUpdate. rewrite Hts. cbn [caught].
  set (s1 := add_new_alerts d _).
  unfold updateAnalyticsStats, updateCharts, updateRiskGauge, updateMapMarkers,
    updateTruckDetail.
  case_matches; split; reflexivity.
Qed.

(** A frame's way through [ws.onmessage] to its handler. *)
Lemma ws_onmessage_stream_update (now : Clock) (d : Message) (st : Client) :
  is_stream_update d = true →
  caught (ws_onmessage now (JsonValue d) st) = caught (handleStreamUpdate now d st)
  ∧ ∃ ts, trucks d = Some ts.
Proof.
  unfold is_stream_update. intros [Hty Hts]%andb_true_iff.
  apply bool_decide_eq_true in Hts as [ts Hts].
  split; [|eauto].
  unfold ws_onmessage, onmessage_try, handleMessage. cbn [caught].
  destruct (type d) as [ty|]; [|discriminate].
  cbn [JS.strict_eq] in *. apply String.eqb_eq in Hty as ->. reflexivity.
Qed.

Lemma run_app (evs evs' : list (Clock * Parsed)) (st : Client) :
  run (evs ++ evs') st = run evs' (run evs st).
Proof. unfold run. apply fold_left_app. Qed.

Lemma run_cons (e : Clock * Parsed) (evs : list (Clock * Parsed)) (st : Client) :
  run (e :: evs) st = run evs (caught (ws_onmessage e.1 e.2 st)).
Proof. reflexivity. Qed.

(** ** The alert list and the alert counter *)

(** Over a run of stream updates the list is the last 200 of everything
    that arrived, and the counter is the number of everything that
    arrived. *)
Lemma run_stream_updates_alerts (ms : list (Clock * Message)) (st : Client) :
  Forall (λ m, is_stream_update m.2 = true) ms →
  length (alertsList st) ≤ 200 →
  alertsList (run (frames ms) st)
  = JS.slice_last 200 (alertsList st ++ concat (map (λ m, carried_alerts m.2) ms))
  ∧ totalAlertCount (run (frames ms) st)
    = totalAlertCount st + length (concat (map (λ m, carried_alerts m.2) ms)).
Proof.
  intros Hms. revert st.
  induction Hms as [|[now d] ms Hd _ IH]; intros st Hle.
  - simpl. rewrite app_nil_r. split; [|lia].
    symmetry. apply slice_last_all, Hle.
  - cbn [frames map]. rewrite run_cons. cbn [fst snd] in *.
    destruct (ws_onmessage_stream_update now d st Hd) as [-> [ts Hts]].
    fold (frames ms).
    destruct (IH (caught (handleStreamUpdate now d st))) as [IHl IHn].
    { rewrite (handleStreamUpdate_alertsList _ _ _ _ Hts), add_new_alerts_alertsList by exact Hle.
      rewrite slice_last_length. lia. }
    rewrite IHl, IHn.
    rewrite (handleStreamUpdate_alertsList _ _ _ _ Hts), add_new_alerts_alertsList by exact Hle.
    rewrite (handleStreamUpdate_totalAlertCount _ _ _ _ Hts).
    rewrite slice_last_app, concat_cons, length_app, <- app_assoc.
    split; [reflexivity|lia].
Qed.

(** C3. Over every sequence of stream updates the alert list holds at most
    200 entries, and they are the most recent ones in arrival order: the
    last 200 of the alerts held before followed by the alerts of the
    updates, so exactly the oldest were evicted. *)
Theorem alert_list_capped_fifo (ms : list (Clock * Message)) (st : Client) :
  Forall (λ m, is_stream_update m.2 = true) ms →
  length (alertsList st) ≤ 200 →
  let arrived := alertsList st ++ concat (map (λ m, carried_alerts m.2) ms) in
  let st' := run (frames ms) st in
  length (alertsList st') ≤ 200
  ∧ alertsList st' = JS.slice_last 200 arrived
  ∧ alertsList st' `suffix_of` arrived
  ∧ length (alertsList st') = min 200 (length arrived).
Proof.
  intros Hms Hle arrived st'.
  destruct (run_stream_updates_alerts ms st Hms Hle) as [Hl _].
  fold arrived st' in Hl. rewrite Hl.
  repeat split.
  - rewrite slice_last_length. lia.
  - apply slice_last_suffix.
  - apply slice_last_length.
Qed.


(** The counter over a run of stream updates, whatever the list held. *)
Lemma run_stream_updates_count (ms : list (Clock * Message)) (st : Client) :
  Forall (λ m, is_stream_update m.2 = true) ms →
  totalAlertCount (run (frames ms) st)
  = totalAlertCount st + length (concat (map (λ m, carried_alerts m.2) ms)).
Proof.
  intros Hms. revert st.
  induction Hms as [|[now d] ms Hd _ IH]; intros st.
  - simpl. lia.
  - cbn [frames map]. rewrite run_cons. cbn [fst snd] in *.
    destruct (ws_onmessage_stream_update now d st Hd) as [-> [ts Hts]].
    fold (frames ms). rewrite IH, (handleStreamUpdate_totalAlertCount _ _ _ _ Hts).
    rewrite concat_cons, length_app. lia.
Qed.

(** After a run that ends in a stream update, the badge and the stat show
    the counter. *)
Lemma run_stream_updates_badges (ms : list (Clock * Message)) (st : Client) :
  Forall (λ m, is_stream_update m.2 = true) ms →
  ms ≠ [] →
  alert_count_badge (document (run (frames ms) st)) = totalAlertCount (run (frames ms) st)
  ∧ stat_total_alerts (document (run (frames ms) st)) = totalAlertCount (run (frames ms) st).
Proof.
  intros Hms Hne.
  destruct (exists_last Hne) as (ms' & [now d] & ->).
  apply Forall_app in Hms as [_ Hd]. apply Forall_cons in Hd as [Hd _]. cbn [snd] in Hd.
  unfold frames. rewrite map_app, run_app. cbn [map]. rewrite run_cons.
  cbn [fst snd run fold_left]. fold (frames ms').
  destruct (ws_onmessage_stream_update now d (run (frames ms') st) Hd) as [-> [ts Hts]].
  apply (handleStreamUpdate_badges now d _ ts Hts).
Qed.

(** C9. Over every sequence of stream updates [totalAlertCount] grows by
    exactly the number of alerts the updates carry, so it never decreases;
    the alert badge and the total-alerts stat show that counter; and
    since the alert list stays within 200, the counter is strictly
    greater than the length of the list once it has passed 200. *)
Theorem total_alert_count_uncapped (ms : list (Clock * Message)) (st : Client) :
  Forall (λ m, is_stream_update m.2 = true) ms →
  let st' := run (frames ms) st in
  totalAlertCount st'
  = totalAlertCount st + length (concat (map (λ m, carried_alerts m.2) ms))
  ∧ totalAlertCount st ≤ totalAlertCount st'
  ∧ (ms ≠ [] →
     alert_count_badge (document st') = totalAlertCount st'
     ∧ stat_total_alerts (document st') = totalAlertCount st')
  ∧ (length (alertsList st) ≤ 200 → 200 < totalAlertCount st' →
     length (alertsList st') < totalAlertCount st').
Proof.
  intros Hms st'.
  assert (Hn : totalAlertCount st'
               = totalAlertCount st + length (concat (map (λ m, carried_alerts m.2) ms)))
    by apply (run_stream_updates_count ms st Hms).
  split; [exact Hn|]. split; [lia|]. split.
  - apply run_stream_updates_badges, Hms.
  - intros Hle Hover.
    destruct (run_stream_updates_alerts ms st Hms Hle) as [Hl _].
    fold st' in Hl. rewrite Hl, slice_last_length. lia.
Qed.

(** ** The history buffers *)

Lemma push_sample_room (buf : list Sample) (x : Sample) :
  length buf < 30 → push_sample buf x = buf ++ [x].
Proof.
  intros Hlt. unfold push_sample, JS.push.
  destruct (Nat.ltb_spec 30 (length (buf ++ [x]))) as [Hgt|_]; [|reflexivity].
  rewrite length_app in Hgt. simpl in Hgt. lia.
Qed.

Lemma push_sample_over (buf : list Sample) (x : Sample) :
  30 ≤ length buf → push_sample buf x = tail buf ++ [x].
Proof.
  intros Hge. unfold push_sample, JS.push, JS.shift.
  destruct (Nat.ltb_spec 30 (length (buf ++ [x]))) as [_|Hfit].
  - destruct buf; [simpl in Hge; lia|reflexivity].
  - rewrite length_app in Hfit. simpl in Hfit. lia.
Qed.

Lemma push_sample_length (buf : list Sample) (x : Sample) :
  length (push_sample buf x) = if 30 <=? length buf then length buf else S (length buf).
Proof.
  destruct (Nat.leb_spec 30 (length buf)) as [Hge|Hlt].
  - rewrite push_sample_over by exact Hge.
    rewrite length_app, length_tl. simpl. lia.
  - rewrite push_sample_room by exact Hlt.
    rewrite length_app. simpl. lia.
Qed.

(** One append keeps a buffer within 30, and on a full buffer it drops
    the oldest sample and nothing else. *)
Lemma push_sample_bounded (buf : list Sample) (x : Sample) :
  length buf ≤ 30 →
  length (push_sample buf x) ≤ 30
  ∧ (length buf = 30 → push_sample buf x = tail buf ++ [x]).
Proof.
  intros Hle. rewrite push_sample_length. split.
  - destruct (Nat.leb_spec 30 (length buf)); lia.
  - intros Hfull. apply push_sample_over. lia.
Qed.

Lemma updateCharts_chartData (now : Clock) (d : Message) (st : Client) :
  chartData (updateCharts now d st)
  = {| eta := push_sample (eta (chartData st)) (eta_sample now st);
       speed_buf := push_sample (speed_buf (chartData st)) (speed_sample now d);
       risk := push_sample (risk (chartData st)) (risk_sample now d) |}.
Proof. reflexivity. Qed.

Lemma handleStreamUpdate_chartData (now : Clock) (d : Message) (st : Client) (ts : list Truck) :
  trucks d = Some ts →
  let st1 := with_truckData (upsert_trucks ts) st in
  chartData (caught (handleStreamUpdate now d st))
  = {| eta := push_sample (eta (chartData st)) (eta_sample now st1);
       speed_buf := push_sample (speed_buf (chartData st)) (speed_sample now d);
       risk := push_sample (risk (chartData st)) (risk_sample now d) |}.
Proof.
  intros Hts st1. unfold handleStreamUpdate. rewrite Hts. cbn [caught]. fold st1.
  assert (Hc : chartData (add_new_alerts d st1) = chartData st)
    by (rewrite add_new_alerts_chartData; reflexivity).
  assert (Ht : truckData (add_new_alerts d st1) = truckData st1)
    by apply add_new_alerts_truckData.
  set (s1 := add_new_alerts d st1) in *.
  transitivity (chartData (updateCharts now d (updateRiskGauge (fleet_risk d) (updateMapMarkers ts s1)))).
  { unfold updateAnalyticsStats, updateTruckDetail. case_matches; reflexivity. }
  rewrite updateCharts_chartData. unfold eta_sample.
  replace (chartData (updateRiskGauge (fleet_risk d) (updateMapMarkers ts s1)))
    with (chartData st) by (rewrite <- Hc; frame).
  replace (truckData (updateRiskGauge (fleet_risk d) (updateMapMarkers ts s1)))
    with (truckData st1) by (rewrite <- Ht; frame).
  reflexivity.
Qed.

(** What [handleInitialState] leaves in the buffers: the history is appended
    to what is there, then [updateCharts] appends one sample and shifts at
    most once. *)
Lemma handleInitialState_chartData (now : Clock) (d : Message) (st : Client) (ts : list Truck) :
  trucks d = Some ts →
  let st1 := with_truckData (upsert_trucks ts) st in
  chartData (caught (handleInitialState now d st))
  = {| eta := push_sample (eta (chartData st) ++ history_samples true (eta_history d))
                (eta_sample now st1);
       speed_buf := push_sample (speed_buf (chartData st) ++ history_samples false (speed_history d))
                      (speed_sample now d);
       risk := push_sample (risk (chartData st) ++ history_samples false (risk_history d))
                 (risk_sample now d) |}.
Proof.
  intros Hts st1. unfold handleInitialState. rewrite Hts. cbn [caught]. fold st1.
  rewrite updateCharts_chartData. unfold eta_sample, JS.push.
  unfold updateAnalyticsStats, updateRiskGauge, updateMapMarkers.
  destruct (fleet_risk d); reflexivity.
Qed.

Lemma history_samples_length (round : bool) (h : list HistoryPoint) :
  length (history_samples round (Some h)) = length h.
Proof. unfold history_samples. apply length_map. Qed.

(** The eta buffer after an [initial_state]: what it held, plus the whole
    history, plus one sample, less one when that is over 30. *)
Lemma handleInitialState_eta_length
    (now : Clock) (d : Message) (st : Client) (ts : list Truck) (h : list HistoryPoint) :
  trucks d = Some ts →
  eta_history d = Some h →
  length (eta (chartData (caught (handleInitialState now d st))))
  = let n := length (eta (chartData st)) + length h in
    if 30 <=? n then n else S n.
Proof.
  intros Hts Hh. rewrite (handleInitialState_chartData _ _ _ _ Hts). cbn [eta].
  rewrite push_sample_length, length_app, Hh, history_samples_length. reflexivity.
Qed.


(** X1. One call of [updateCharts] on buffers of at most 30 samples leaves
    each within 30, and a buffer that held exactly 30 loses its oldest
    sample and keeps the others in order, the new sample last. *)
Theorem updateCharts_appends_within_cap (now : Clock) (d : Message) (st : Client) :
  length (eta (chartData st)) ≤ 30 →
  length (speed_buf (chartData st)) ≤ 30 →
  length (risk (chartData st)) ≤ 30 →
  let c := chartData st in
  let c' := chartData (updateCharts now d st) in
  (length (eta c') ≤ 30 ∧ length (speed_buf c') ≤ 30 ∧ length (risk c') ≤ 30)
  ∧ (length (eta c) = 30 → eta c' = tail (eta c) ++ [eta_sample now st])
  ∧ (length (speed_buf c) = 30 → speed_buf c' = tail (speed_buf c) ++ [speed_sample now d])
  ∧ (length (risk c) = 30 → risk c' = tail (risk c) ++ [risk_sample now d]).
Proof.
  intros He Hs Hr c c'. subst c c'. rewrite updateCharts_chartData. cbn [eta speed_buf risk].
  destruct (push_sample_bounded _ (eta_sample now st) He) as [He1 He2].
  destruct (push_sample_bounded _ (speed_sample now d) Hs) as [Hs1 Hs2].
  destruct (push_sample_bounded _ (risk_sample now d) Hr) as [Hr1 Hr2].
  auto 10.
Qed.

(** X2. Over every run of stream updates, buffers that are within 30
    stay within 30. *)
Lemma stream_updates_keep_buffers_bounded (ms : list (Clock * Message)) (st : Client) :
  Forall (λ m, is_stream_update m.2 = true) ms →
  length (eta (chartData st)) ≤ 30 →
  length (speed_buf (chartData st)) ≤ 30 →
  length (risk (chartData st)) ≤ 30 →
  let st' := run (frames ms) st in
  length (eta (chartData st')) ≤ 30
  ∧ length (speed_buf (chartData st')) ≤ 30
  ∧ length (risk (chartData st')) ≤ 30.
Proof.
  intros Hms. revert st.
  induction Hms as [|[now d] ms Hd _ IH]; intros st He Hs Hr.
  - simpl. auto.
  - cbn [frames map]. rewrite run_cons. cbn [fst snd] in *.
    destruct (ws_onmessage_stream_update now d st Hd) as [-> [ts Hts]].
    apply IH; rewrite (handleStreamUpdate_chartData _ _ _ _ Hts); cbn [eta speed_buf risk];
      apply push_sample_bounded; assumption.
Qed.

(** C2. A second [initial_state] in the life of the page (the one the
    server sends after the reconnect of [scheduleReconnect]) appends its
    history to the buffers the first one filled: with the 30-point
    histories of a server whose own buffers are full, each buffer holds 30
    samples after the first message and 60 after the second. *)
Theorem chart_history_doubles_on_reconnect (c1 c2 : Clock) (page : Dom) :
  let m := initial_state_of [] full_history in
  let st1 := run (frames [(c1, m)]) (initial_client page) in
  let st2 := run (frames [(c1, m); (c2, m)]) (initial_client page) in
  (length (eta (chartData st1)) = 30
   ∧ length (speed_buf (chartData st1)) = 30
   ∧ length (risk (chartData st1)) = 30)
  ∧ (length (eta (chartData st2)) = 60
     ∧ length (speed_buf (chartData st2)) = 60
     ∧ length (risk (chartData st2)) = 60).
Proof.
  intros m st1 st2. vm_compute. repeat split; reflexivity.
Qed.


(** ** Temperature bands *)

Lemma ge_spec (a b : Q) : JS.ge a b = true ↔ (b <= a)%Q.
Proof. apply Qle_bool_iff. Qed.

Lemma le_spec (a b : Q) : JS.le a b = true ↔ (a <= b)%Q.
Proof. apply Qle_bool_iff. Qed.

Lemma lt_spec (a b : Q) : JS.lt a b = true ↔ (a < b)%Q.
Proof.
  unfold JS.lt. rewrite negb_true_iff, <- not_true_iff_false, Qle_bool_iff.
  split; [apply Qnot_le_lt|apply Qlt_not_le].
Qed.

Lemma gt_spec (a b : Q) : JS.gt a b = true ↔ (b < a)%Q.
Proof.
  unfold JS.gt. rewrite negb_true_iff, <- not_true_iff_false, Qle_bool_iff.
  split; [apply Qnot_le_lt|apply Qlt_not_le].
Qed.

Lemma temp_compliant_spec (t : Truck) :
  temp_compliant t = true ↔ (28 <= temperature t ∧ temperature t <= 38)%Q.
Proof. unfold temp_compliant. rewrite andb_true_iff, ge_spec, le_spec. reflexivity. Qed.

Lemma temp_warning_spec (t : Truck) :
  temp_warning t = true
  ↔ ((25 <= temperature t ∧ temperature t < 28) ∨ (38 < temperature t ∧ temperature t <= 42))%Q.
Proof.
  unfold temp_warning.
  rewrite orb_true_iff, !andb_true_iff, ge_spec, le_spec, lt_spec, gt_spec. tauto.
Qed.

Lemma temp_critical_spec (t : Truck) :
  temp_critical t = true ↔ (temperature t < 25 ∨ 42 < temperature t)%Q.
Proof. unfold temp_critical. rewrite orb_true_iff, lt_spec, gt_spec. reflexivity. Qed.

(** Each truck is in exactly one band. *)
Lemma temp_band_exclusive (t : Truck) :
  (temp_compliant t, temp_warning t, temp_critical t) = (true, false, false)
  ∨ (temp_compliant t, temp_warning t, temp_critical t) = (false, true, false)
  ∨ (temp_compliant t, temp_warning t, temp_critical t) = (false, false, true).
Proof.
  pose proof (temp_compliant_spec t) as Hc.
  pose proof (temp_warning_spec t) as Hw.
  pose proof (temp_critical_spec t) as Hk.
  destruct (temp_compliant t), (temp_warning t), (temp_critical t);
    first [ left; reflexivity | right; left; reflexivity | right; right; reflexivity | exfalso ].
  all: repeat match goal with
         | H : true = true ↔ _ |- _ => destruct (proj1 H eq_refl); clear H
         | H : false = true ↔ _ |- _ =>
             assert (¬ _) by (intros ?; discriminate (proj2 H ltac:(eassumption))); clear H
         end; try lra.
Qed.


Lemma temp_band_counts (ts : list Truck) :
  length (List.filter temp_compliant ts) + length (List.filter temp_warning ts)
  + length (List.filter temp_critical ts) = length ts.
Proof.
  induction ts as [|t ts IH]; [reflexivity|].
  cbn [List.filter].
  destruct (temp_band_exclusive t) as [Hb|[Hb|Hb]];
    injection Hb as -> -> ->; cbn [length]; lia.
Qed.

(** C4, as the code has it. The three filters split the temperatures as
    stated: compliant within [28,38], warning outside it but within
    [25,42], critical outside [25,42]; every truck is in exactly one
    band; and the three counts add up to the number of trucks. The
    doughnut, however, is given [compliant || 1]: its three numbers add
    up to the number of trucks when some truck is compliant, and to one
    more when none is. *)
Theorem temperature_bands (now : Clock) (d : Message) (st : Client) :
  let ts := Object_values (truckData st) in
  let compliant := length (List.filter temp_compliant ts) in
  let warning := length (List.filter temp_warning ts) in
  let critical := length (List.filter temp_critical ts) in
  (∀ t : Truck,
      (temp_compliant t = true ↔ (28 <= temperature t ∧ temperature t <= 38)%Q)
      ∧ (temp_warning t = true
         ↔ ¬ (28 <= temperature t ∧ temperature t <= 38)%Q
           ∧ (25 <= temperature t ∧ temperature t <= 42)%Q)
      ∧ (temp_critical t = true ↔ ¬ (25 <= temperature t ∧ temperature t <= 42)%Q)
      ∧ ((temp_compliant t, temp_warning t, temp_critical t) = (true, false, false)
         ∨ (temp_compliant t, temp_warning t, temp_critical t) = (false, true, false)
         ∨ (temp_compliant t, temp_warning t, temp_critical t) = (false, false, true)))
  ∧ compliant + warning + critical = length ts
  ∧ temp_compliance (document (updateCharts now d st))
    = [ (if compliant =? 0 then 1 else compliant); warning; critical ]
  ∧ list_sum (temp_compliance (document (updateCharts now d st)))
    = length ts + (if compliant =? 0 then 1 else 0).
Proof.
  intros ts compliant warning critical.
  assert (Hsum : compliant + warning + critical = length ts) by apply temp_band_counts.
  split; [|split; [exact Hsum|split]].
  - intros t. split; [apply temp_compliant_spec|].
    split; [rewrite temp_warning_spec; split; intros; lra|].
    split; [rewrite temp_critical_spec; split; intros; lra|].
    apply temp_band_exclusive.
  - reflexivity.
  - change (temp_compliance (document (updateCharts now d st)))
      with [ (if compliant =? 0 then 1 else compliant); warning; critical ].
    cbn [list_sum foldr list_sum]. destruct (Nat.eqb_spec compliant 0); lia.
Qed.


(** ** The AI assistant *)

Lemma strict_eq_spec (x : option string) (lit : string) :
  JS.strict_eq x lit = true ↔ x = Some lit.
Proof.
  destruct x as [s|]; cbn [JS.strict_eq].
  - rewrite String.eqb_eq. split; [intros ->; reflexivity|intros [= ->]; reflexivity].
  - split; discriminate.
Qed.

Lemma strict_eq_false (x : option string) (lit : string) :
  JS.strict_eq x lit = false ↔ x ≠ Some lit.
Proof. rewrite <- strict_eq_spec. symmetry. apply not_true_iff_false. Qed.

Lemma handleAIResponse_badge (now : Clock) (data : Message) (st : Client) :
  ai_source_badge (document (handleAIResponse now data st))
  = if JS.strict_eq (source data) "gemini" then "GEMINI" else "RULE-BASED".
Proof. reflexivity. Qed.

(** C5, as the code has it. The badge reads GEMINI exactly when the
    [source] field is the string [gemini], and RULE-BASED for every other
    value, the spec's [model] and [rule-based] and an absent field
    included. *)
Theorem ai_source_badge_reflects_gemini (now : Clock) (data : Message) (st : Client) :
  let badge := ai_source_badge (document (handleAIResponse now data st)) in
  (badge = "GEMINI" ↔ source data = Some "gemini")
  ∧ (badge = "RULE-BASED" ↔ source data ≠ Some "gemini")
  ∧ (source data = Some "model" ∨ source data = Some "rule-based" ∨ source data = None
     → badge = "RULE-BASED").
Proof.
  intros badge. subst badge. rewrite handleAIResponse_badge.
  destruct (JS.strict_eq (source data) "gemini") eqn:Hsrc.
  - apply strict_eq_spec in Hsrc. rewrite Hsrc.
    split; [tauto|]. split; [split; [discriminate|congruence]|].
    intros [|[|]]; discriminate.
  - apply strict_eq_false in Hsrc.
    split; [split; [discriminate|contradiction]|]. tauto.
Qed.

(** ** Risk levels on the map and on the gauge *)

Lemma getMarkerColor_default (level : option string) :
  level ≠ Some "CRITICAL" → level ≠ Some "HIGH" → level ≠ Some "MEDIUM" →
  getMarkerColor level = "#3cf91a".
Proof.
  intros H1 H2 H3. unfold getMarkerColor.
  apply strict_eq_false in H1, H2, H3. rewrite H1, H2, H3. reflexivity.
Qed.

Lemma updateRiskGauge_default (r : FleetRisk) (st : Client) :
  overall_level r ≠ Some "LOW" → overall_level r ≠ Some "MEDIUM" →
  overall_level r ≠ Some "HIGH" →
  risk_badge_class (document (updateRiskGauge (Some r) st)) = "card-badge badge-critical"
  ∧ risk_circle_color (document (updateRiskGauge (Some r) st)) = "#ef4444".
Proof.
  intros H1 H2 H3. cbn. unfold risk_badge_class_of, risk_color_of.
  apply strict_eq_false in H1, H2, H3. rewrite H1, H2, H3. split; reflexivity.
Qed.

(** C10. The marker colour is the low-risk green for every level other
    than CRITICAL, HIGH and MEDIUM, an absent one included; the gauge
    takes the critical class and colour for every level other than LOW,
    MEDIUM and HIGH; so every level outside the four named ones, an absent
    one included, is drawn as LOW is on the map and as CRITICAL is on the
    gauge. *)
Theorem risk_renderers_disagree :
  (∀ level : option string,
      level ≠ Some "CRITICAL" → level ≠ Some "HIGH" → level ≠ Some "MEDIUM" →
      getMarkerColor level = "#3cf91a")
  ∧ (∀ (r : FleetRisk) (st : Client),
        overall_level r ≠ Some "LOW" → overall_level r ≠ Some "MEDIUM" →
        overall_level r ≠ Some "HIGH" →
        risk_badge_class (document (updateRiskGauge (Some r) st)) = "card-badge badge-critical"
        ∧ risk_circle_color (document (updateRiskGauge (Some r) st)) = "#ef4444")
  ∧ (∀ (level : option string) (score count : Q) (st : Client),
        level ≠ Some "LOW" → level ≠ Some "MEDIUM" → level ≠ Some "HIGH" →
        level ≠ Some "CRITICAL" →
        let as_is := {| overall_score := score; overall_level := level;
                        high_risk_count := count |} in
        let critical := {| overall_score := score; overall_level := Some "CRITICAL";
                           high_risk_count := count |} in
        getMarkerColor level = getMarkerColor (Some "LOW")
        ∧ risk_badge_class (document (updateRiskGauge (Some as_is) st))
          = risk_badge_class (document (updateRiskGauge (Some critical) st))
        ∧ risk_circle_color (document (updateRiskGauge (Some as_is) st))
          = risk_circle_color (document (updateRiskGauge (Some critical) st))
        ∧ getMarkerColor level ≠ getMarkerColor (Some "CRITICAL"))
  ∧ (∃ level : option string,
        (level ≠ Some "LOW" ∧ level ≠ Some "MEDIUM" ∧ level ≠ Some "HIGH"
         ∧ level ≠ Some "CRITICAL")
        ∧ getMarkerColor level = "#3cf91a"
        ∧ risk_badge_class_of level = "badge-critical"
        ∧ risk_color_of level = "#ef4444").
Proof.
  split; [exact getMarkerColor_default|].
  split; [exact updateRiskGauge_default|].
  split.
  - intros level score count st HL HM HH HC as_is critical.
    rewrite (getMarkerColor_default level HC HH HM).
    destruct (updateRiskGauge_default as_is st HL HM HH) as [-> ->].
    repeat split; discriminate.
  - exists (Some "UNKNOWN"). repeat split; discriminate.
Qed.


(** ** Messages the controller does not handle *)

Lemma handleMessage_unhandled (now : Clock) (d : Message) (st : Client) :
  type d ≠ Some "initial_state" → type d ≠ Some "stream_update" →
  type d ≠ Some "ai_response" →
  handleMessage now d st = Normal st.
Proof.
  intros H1 H2 H3. unfold handleMessage.
  apply strict_eq_false in H1, H2, H3. rewrite H1, H2, H3.
  destruct (JS.strict_eq (type d) "pong"); reflexivity.
Qed.

(** [ws.onmessage] never throws. *)
Lemma ws_onmessage_returns (now : Clock) (ev : Parsed) (st : Client) :
  returns (ws_onmessage now ev st) = true.
Proof. reflexivity. Qed.

(** C8. When [JSON.parse] fails, or gives [null], or gives a value whose
    [type] is absent or none of [initial_state], [stream_update] and
    [ai_response] (a [pong] included), [ws.onmessage] returns normally and
    leaves the client as it was: [truckData], [alertsList], [chartData],
    [totalAlertCount] and the rest of the state. *)
Theorem unhandled_message_is_ignored (now : Clock) (ev : Parsed) (st : Client) :
  (ev = SyntaxError
   ∨ ev = JsonNull
   ∨ ∃ d, ev = JsonValue d
          ∧ (type d = Some "pong"
             ∨ (type d ≠ Some "initial_state" ∧ type d ≠ Some "stream_update"
                ∧ type d ≠ Some "ai_response" ∧ type d ≠ Some "pong"))) →
  ws_onmessage now ev st = Normal st
  ∧ returns (ws_onmessage now ev st) = true
  ∧ truckData (run [(now, ev)] st) = truckData st
  ∧ alertsList (run [(now, ev)] st) = alertsList st
  ∧ chartData (run [(now, ev)] st) = chartData st
  ∧ totalAlertCount (run [(now, ev)] st) = totalAlertCount st.
Proof.
  intros Hev.
  assert (Hsame : ws_onmessage now ev st = Normal st).
  { destruct Hev as [->|[->|(d & -> & Hty)]]; [reflexivity|reflexivity|].
    unfold ws_onmessage, onmessage_try.
    rewrite handleMessage_unhandled; [reflexivity| | | ].
    all: destruct Hty as [Hpong|(H1 & H2 & H3 & _)]; [rewrite Hpong; discriminate|assumption]. }
  unfold run. cbn [fold_left fst snd]. rewrite Hsame. cbn [caught].
  repeat split; reflexivity.
Qed.

(** ** Asking the assistant *)

Lemma sendAIMessage_blank (now : Clock) (ws : option ReadyState) (st : Client) :
  JS.trim (ai_input (document st)) = "" → sendAIMessage now ws st = (st, None).
Proof. intros Hq. unfold sendAIMessage. rewrite Hq. reflexivity. Qed.

Lemma ws_onmessage_ai_response (now : Clock) (d : Message) (st : Client) :
  type d = Some "ai_response" →
  ws_onmessage now (JsonValue d) st = Normal (handleAIResponse now d st).
Proof.
  intros Hty. unfold ws_onmessage, onmessage_try, handleMessage.
  rewrite Hty. reflexivity.
Qed.

(** C6. A question (the input, trimmed, when something is left) goes out
    as the frame [{type: 'ai_question', question}] when the socket is
    open, and otherwise as a POST to [/api/ai/ask] with the body
    [{question}]; the page is left the same either way; and the REST
    reply is given to [handleAIResponse], which is also what a channel
    frame of type [ai_response] with the same payload is given, so the two
    leave the same state. *)
Theorem question_goes_to_channel_or_rest
    (now : Clock) (ws : option ReadyState) (st : Client) :
  let question := JS.trim (ai_input (document st)) in
  question ≠ "" →
  (ws_is_open ws = true →
     (sendAIMessage now ws st).2
     = Some (WsSend {| frame_type := "ai_question"; frame_question := question |}))
  ∧ (ws_is_open ws = false →
       (sendAIMessage now ws st).2
       = Some (Fetch {| url := "/api/ai/ask"; method := "POST";
                        content_type := "application/json";
                        body_question := question |}))
  ∧ (sendAIMessage now ws st).1 = (sendAIMessage now None st).1
  ∧ (∀ (later : Clock) (reply : Message) (st' : Client),
        fetch_then later (Some reply) st' = handleAIResponse later reply st'
        ∧ (type reply = Some "ai_response" →
           ws_onmessage later (JsonValue reply) st'
           = Normal (fetch_then later (Some reply) st'))).
Proof.
  intros question Hq. unfold sendAIMessage. fold question.
  apply String.eqb_neq in Hq. rewrite Hq.
  split; [intros ->; reflexivity|].
  split; [intros ->; reflexivity|].
  split; [destruct (ws_is_open ws); reflexivity|].
  intros later reply st'. split; [reflexivity|].
  apply ws_onmessage_ai_response.
Qed.


(** ** The truck table *)

Lemma upsert_trucks_lookup_other (ts : list Truck) (m : gmap string Truck) (id : string) :
  id ∉ ids ts → upsert_trucks ts m !! id = m !! id.
Proof.
  revert m. induction ts as [|t ts IH]; intros m Hid; [reflexivity|].
  unfold ids in Hid. cbn [map list_to_set] in Hid.
  change (upsert_trucks (t :: ts) m) with (upsert_trucks ts (<[truck_id t := t]> m)).
  rewrite IH by (unfold ids; set_solver).
  apply lookup_insert_ne. set_solver.
Qed.

(** Upserting an array into a table: the array's own table, the old
    entries showing through where the array has none. *)
Lemma upsert_trucks_union (ts : list Truck) (m : gmap string Truck) :
  upsert_trucks ts m = table_of ts ∪ m.
Proof.
  unfold table_of. revert m. induction ts as [|t ts IH]; intros m.
  - cbn. rewrite (left_id_L ∅ (∪)). reflexivity.
  - change (upsert_trucks (t :: ts) m) with (upsert_trucks ts (<[truck_id t := t]> m)).
    change (upsert_trucks (t :: ts) ∅) with (upsert_trucks ts (<[truck_id t := t]> ∅)).
    rewrite (IH (<[truck_id t := t]> m)), (IH (<[truck_id t := t]> ∅)).
    rewrite <- (assoc_L (∪)). f_equal.
    rewrite insert_union_singleton_l, (insert_union_singleton_l ∅).
    rewrite (right_id_L ∅ (∪)). reflexivity.
Qed.

Lemma dom_upsert_trucks (ts : list Truck) (m : gmap string Truck) :
  dom (upsert_trucks ts m) = ids ts ∪ dom m.
Proof.
  revert m. induction ts as [|t ts IH]; intros m.
  - unfold ids. cbn. set_solver.
  - change (upsert_trucks (t :: ts) m) with (upsert_trucks ts (<[truck_id t := t]> m)).
    rewrite IH, dom_insert_L. unfold ids. cbn [map list_to_set]. set_solver.
Qed.

(** An array that names every truck of the table replaces the table. *)
Lemma upsert_trucks_covering (ts : list Truck) (m : gmap string Truck) :
  dom m ⊆ ids ts → upsert_trucks ts m = table_of ts.
Proof.
  intros Hdom. rewrite upsert_trucks_union.
  apply map_eq. intros id. rewrite lookup_union.
  destruct (table_of ts !! id) as [x|] eqn:Hx.
  - destruct (m !! id); reflexivity.
  - assert (Hout : id ∉ dom (table_of ts)) by (apply not_elem_of_dom; exact Hx).
    unfold table_of in Hout. rewrite dom_upsert_trucks in Hout.
    assert (Hm : m !! id = None) by (apply not_elem_of_dom; set_solver).
    rewrite Hm. reflexivity.
Qed.

Lemma handleInitialState_truckData (now : Clock) (d : Message) (st : Client) (ts : list Truck) :
  trucks d = Some ts →
  truckData (caught (handleInitialState now d st)) = upsert_trucks ts (truckData st).
Proof.
  intros Hts. unfold handleInitialState. rewrite Hts. cbn [caught].
  unfold updateCharts, updateAnalyticsStats, updateRiskGauge, updateMapMarkers.
  destruct (fleet_risk d); reflexivity.
Qed.

(** A frame either leaves the table alone or upserts the trucks array it
    carries. *)
Lemma ws_onmessage_truckData_cases (now : Clock) (ev : Parsed) (st : Client) :
  truckData (caught (ws_onmessage now ev st)) = truckData st
  ∨ ∃ d ts, ev = JsonValue d ∧ trucks d = Some ts
            ∧ ∀ (now' : Clock) (st' : Client),
                truckData (caught (ws_onmessage now' ev st'))
                = upsert_trucks ts (truckData st').
Proof.
  destruct ev as [| |d]; [left; reflexivity|left; reflexivity|].
  unfold ws_onmessage, onmessage_try, handleMessage. cbn [caught].
  destruct (JS.strict_eq (type d) "initial_state").
  { destruct (trucks d) as [ts|] eqn:Hts.
    - right. exists d, ts. split; [reflexivity|]. split; [exact Hts|].
      intros now' st'. apply (handleInitialState_truckData _ _ _ _ Hts).
    - left. unfold handleInitialState. rewrite Hts. reflexivity. }
  destruct (JS.strict_eq (type d) "stream_update").
  { destruct (trucks d) as [ts|] eqn:Hts.
    - right. exists d, ts. split; [reflexivity|]. split; [exact Hts|].
      intros now' st'. apply (handleStreamUpdate_truckData _ _ _ _ Hts).
    - left. unfold handleStreamUpdate. rewrite Hts. reflexivity. }
  left. destruct (JS.strict_eq (type d) "ai_response").
  { cbn [caught]. unfold handleAIResponse. destruct (token_usage d); reflexivity. }
  destruct (JS.strict_eq (type d) "pong"); reflexivity.
Qed.





Lemma run_dom_within_fleet (fleet : gset string) (ms : list (Clock * Message)) (st : Client) :
  Forall (within_fleet fleet) (map snd ms) →
  dom (truckData st) ⊆ fleet →
  dom (truckData (run (frames ms) st)) ⊆ fleet.
Proof.
  revert st. induction ms as [|[now d] ms IH]; intros st Hms Hst; [exact Hst|].
  cbn [map snd] in Hms. apply Forall_cons in Hms as [Hd Hms].
  cbn [frames map]. rewrite run_cons. cbn [fst snd]. apply IH; [exact Hms|].
  destruct (ws_onmessage_truckData_cases now (JsonValue d) st)
    as [->|(d' & ts & [= <-] & Hts & Hup)]; [exact Hst|].
  rewrite (Hup now st), dom_upsert_trucks. specialize (Hd ts Hts). set_solver.
Qed.



(** X4. When every frame a session has applied carries trucks of one
    fleet, and its latest frame is a stream update that lists the whole
    fleet, the session's table is the table of that frame's array: the
    live table of the server. *)
Lemma session_holds_live_table
    (page : Dom) (ms : list (Clock * Message)) (now : Clock) (d : Message) (ts : list Truck) :
  is_stream_update d = true →
  trucks d = Some ts →
  Forall (within_fleet (ids ts)) (map snd ms) →
  truckData (run (frames (ms ++ [(now, d)])) (initial_client page)) = table_of ts.
Proof.
  intros Hd Hts Hms. unfold frames. rewrite map_app, run_app.
  fold (frames ms). cbn [map]. rewrite run_cons. cbn [fst snd run fold_left].
  destruct (ws_onmessage_stream_update now d (run (frames ms) (initial_client page)) Hd)
    as [-> _].
  rewrite (handleStreamUpdate_truckData _ _ _ _ Hts).
  apply upsert_trucks_covering, run_dom_within_fleet; [exact Hms|].
  cbn. set_solver.
Qed.

(** X3. No frame removes a truck: what a session has seen stays in its
    table. *)
Lemma truck_table_only_grows (evs : list (Clock * Parsed)) (st : Client) :
  dom (truckData st) ⊆ dom (truckData (run evs st)).
Proof.
  revert st. induction evs as [|[now ev] evs IH]; intros st; [reflexivity|].
  rewrite run_cons. cbn [fst snd]. etransitivity; [|apply IH].
  destruct (ws_onmessage_truckData_cases now ev st) as [->|(d & ts & _ & _ & Hup)];
    [reflexivity|].
  rewrite (Hup now st), dom_upsert_trucks. set_solver.
Qed.

End Handlers.


(** * Properties of the alert engine *)

Section EdgeTriggering.

Context {Rule : Type} `{Countable Rule}.
Variable fires : Rule → Truck → bool.
Variable rules : list Rule.

Local Abbreviation evaluate_truck := (AlertEngine.evaluate_truck fires rules).
Local Abbreviation tick := (AlertEngine.tick fires rules).
Local Abbreviation ticks := (AlertEngine.ticks fires rules).
Local Abbreviation fired_now := (AlertEngine.fired_now fires rules).
Local Abbreviation rising_edge := (AlertEngine.rising_edge fires).
Local Abbreviation rule_holds := (AlertEngine.rule_holds fires).
Local Abbreviation fired_before := AlertEngine.fired_before.
Local Abbreviation alerts_for := AlertEngine.alerts_for.

Lemma alerts_for_app (id : string) (r : Rule) (out out' : list (string * Rule)) :
  alerts_for id r (out ++ out') = alerts_for id r out + alerts_for id r out'.
Proof. unfold alerts_for. rewrite List.filter_app, length_app. reflexivity. Qed.

Lemma alerts_for_other_truck (id tid : string) (r : Rule) (rs : list Rule) :
  tid ≠ id → alerts_for id r (map (λ r', (tid, r')) rs) = 0.
Proof.
  intros Hne. unfold alerts_for. induction rs as [|r' rs IH]; [reflexivity|].
  cbn [map List.filter]. rewrite bool_decide_eq_false_2 by congruence. exact IH.
Qed.

Lemma alerts_for_same_truck (id : string) (r : Rule) (P : Rule → bool) (rs : list Rule) :
  NoDup rs → r ∈ rs →
  alerts_for id r (map (λ r', (id, r')) (List.filter P rs)) = if P r then 1 else 0.
Proof.
  unfold alerts_for. induction rs as [|r' rs IH]; intros Hnd Hin.
  - apply elem_of_nil in Hin. contradiction.
  - apply NoDup_cons in Hnd as [Hfresh Hnd].
    assert (Hrest : r ∉ rs →
              length (List.filter (λ a, bool_decide (a = (id, r)))
                        (map (λ r', (id, r')) (List.filter P rs))) = 0).
    { clear. intros Hout. induction rs as [|x rs IHrs]; [reflexivity|].
      apply not_elem_of_cons in Hout as [Hx Hout].
      cbn [List.filter]. destruct (P x); [|exact (IHrs Hout)].
      cbn [map List.filter]. rewrite bool_decide_eq_false_2 by congruence.
      exact (IHrs Hout). }
    apply elem_of_cons in Hin as [->|Hin].
    + cbn [List.filter]. destruct (P r'); [|exact (Hrest Hfresh)].
      cbn [map List.filter]. rewrite bool_decide_eq_true_2 by reflexivity.
      cbn [length]. rewrite (Hrest Hfresh). reflexivity.
    + assert (r' ≠ r) by (intros ->; contradiction).
      cbn [List.filter]. destruct (P r'); [|exact (IH Hnd Hin)].
      cbn [map List.filter]. rewrite bool_decide_eq_false_2 by congruence.
      exact (IH Hnd Hin).
Qed.

Lemma elem_of_fired_now (r : Rule) (t : Truck) :
  r ∈ fired_now t ↔ r ∈ rules ∧ fires r t = true.
Proof.
  unfold AlertEngine.fired_now. rewrite elem_of_list_to_set, list_elem_of_In, List.filter_In.
  rewrite <- list_elem_of_In. reflexivity.
Qed.

(** A truck's step leaves the other trucks alone. *)
Lemma evaluate_truck_other (id : string) (r : Rule) (acc : gmap string (gset Rule) * list (string * Rule)) (t : Truck) :
  truck_id t ≠ id →
  (evaluate_truck acc t).1 !! id = acc.1 !! id
  ∧ alerts_for id r (evaluate_truck acc t).2 = alerts_for id r acc.2.
Proof.
  intros Hne. unfold AlertEngine.evaluate_truck. cbn [fst snd]. split.
  - apply lookup_insert_ne, Hne.
  - rewrite alerts_for_app, alerts_for_other_truck by exact Hne. lia.
Qed.

(** Its own step: an alert for the rule exactly on a rising edge. *)
Lemma evaluate_truck_same (r : Rule) (acc : gmap string (gset Rule) * list (string * Rule)) (t : Truck) :
  NoDup rules → r ∈ rules →
  (evaluate_truck acc t).1 !! truck_id t = Some (fired_now t)
  ∧ alerts_for (truck_id t) r (evaluate_truck acc t).2
    = alerts_for (truck_id t) r acc.2
      + (if rising_edge (fired_before acc.1 (truck_id t)) r t then 1 else 0).
Proof.
  intros Hnd Hin. unfold AlertEngine.evaluate_truck. cbn [fst snd]. split.
  - apply lookup_insert_eq.
  - rewrite alerts_for_app. f_equal.
    unfold AlertEngine.new_alerts.
    apply (alerts_for_same_truck (truck_id t) r
             (λ r', rising_edge (fired_before acc.1 (truck_id t)) r' t) rules Hnd Hin).
Qed.

Lemma fold_evaluate_other (id : string) (r : Rule) (fleet : list Truck)
    (acc : gmap string (gset Rule) * list (string * Rule)) :
  id ∉ map truck_id fleet →
  (fold_left evaluate_truck fleet acc).1 !! id = acc.1 !! id
  ∧ alerts_for id r (fold_left evaluate_truck fleet acc).2 = alerts_for id r acc.2.
Proof.
  revert acc. induction fleet as [|t fleet IH]; intros acc Hout; [split; reflexivity|].
  cbn [map] in Hout. apply not_elem_of_cons in Hout as [Hne Hout].
  cbn [fold_left]. destruct (IH (evaluate_truck acc t) Hout) as [-> ->].
  apply evaluate_truck_other. congruence.
Qed.

Lemma fold_evaluate_same (r : Rule) (t : Truck) (fleet : list Truck)
    (acc : gmap string (gset Rule) * list (string * Rule)) :
  NoDup rules → r ∈ rules →
  NoDup (map truck_id fleet) → t ∈ fleet →
  (fold_left evaluate_truck fleet acc).1 !! truck_id t = Some (fired_now t)
  ∧ alerts_for (truck_id t) r (fold_left evaluate_truck fleet acc).2
    = alerts_for (truck_id t) r acc.2
      + (if rising_edge (fired_before acc.1 (truck_id t)) r t then 1 else 0).
Proof.
  intros Hnd Hin. revert acc.
  induction fleet as [|t' fleet IH]; intros acc Hids Ht.
  - apply elem_of_nil in Ht. contradiction.
  - cbn [map] in Hids. apply NoDup_cons in Hids as [Hfresh Hids].
    cbn [fold_left]. apply elem_of_cons in Ht as [<-|Ht].
    + destruct (fold_evaluate_other (truck_id t) r fleet (evaluate_truck acc t) Hfresh)
        as [-> ->].
      apply evaluate_truck_same; assumption.
    + assert (Hne : truck_id t' ≠ truck_id t).
      { intros Heq. apply Hfresh. rewrite Heq. apply list_elem_of_fmap_2, Ht. }
      destruct (IH (evaluate_truck acc t') Hids Ht) as [-> ->].
      destruct (evaluate_truck_other (truck_id t) r acc t' Hne) as [Hm ->].
      unfold AlertEngine.fired_before. rewrite Hm. split; reflexivity.
Qed.

(** One tick: the truck's memory becomes the rules that hold of it, and
    the rule gives one alert on a rising edge and none otherwise. *)
Lemma tick_edge (mem : gmap string (gset Rule)) (r : Rule) (t : Truck) (fleet : list Truck) :
  NoDup rules → r ∈ rules →
  NoDup (map truck_id fleet) → t ∈ fleet →
  (tick mem fleet).1 !! truck_id t = Some (fired_now t)
  ∧ alerts_for (truck_id t) r (tick mem fleet).2
    = if rising_edge (fired_before mem (truck_id t)) r t then 1 else 0.
Proof.
  intros Hnd Hin Hids Ht. unfold AlertEngine.tick.
  destruct (fold_evaluate_same r t fleet (mem, []) Hnd Hin Hids Ht) as [-> ->].
  split; reflexivity.
Qed.

(** While the rule stays fired no alert is emitted. *)
Lemma ticks_while_fired (mem : gmap string (gset Rule)) (id : string) (r : Rule)
    (fleets : list (list Truck)) :
  NoDup rules → r ∈ rules →
  Forall (rule_holds id r) fleets →
  r ∈ fired_before mem id →
  map (alerts_for id r) (ticks mem fleets) = replicate (length fleets) 0.
Proof.
  intros Hnd Hin Hfleets. revert mem.
  induction Hfleets as [|fleet fleets (Hids & t & Ht & <- & Hfires) _ IH]; intros mem Hprev;
    [reflexivity|].
  cbn [AlertEngine.ticks map length replicate].
  destruct (tick_edge mem r t fleet Hnd Hin Hids Ht) as [Hmem ->].
  unfold AlertEngine.rising_edge. rewrite Hfires, bool_decide_eq_false_2 by (intros Hout; contradiction).
  cbn [andb]. f_equal. apply IH.
  unfold AlertEngine.fired_before. rewrite Hmem. apply elem_of_fired_now. auto.
Qed.

(** C7. In the engine of sections 4.3 and 9, on every tick a rule gives a
    truck one alert when it goes from not-fired to fired and none
    otherwise; so a rule that was not fired and then holds of the truck on
    5 consecutive ticks gives one alert on the first of them and none on
    the other four. *)
Theorem alert_only_on_rising_edge (mem : gmap string (gset Rule)) (id : string) (r : Rule) :
  NoDup rules → r ∈ rules →
  (∀ (fleet : list Truck) (t : Truck),
      NoDup (map truck_id fleet) → t ∈ fleet → truck_id t = id →
      alerts_for id r (tick mem fleet).2
      = if fires r t && bool_decide (r ∉ fired_before mem id) then 1 else 0)
  ∧ (∀ fleets : list (list Truck),
        length fleets = 5 →
        Forall (rule_holds id r) fleets →
        r ∉ fired_before mem id →
        map (alerts_for id r) (ticks mem fleets) = [1; 0; 0; 0; 0]).
Proof.
  intros Hnd Hin. split.
  - intros fleet t Hids Ht <-.
    apply (tick_edge mem r t fleet Hnd Hin Hids Ht).
  - intros [|fleet fleets] Hlen Hfleets Hprev; [discriminate|].
    apply Forall_cons in Hfleets as [(Hids & t & Ht & <- & Hfires) Hfleets].
    cbn [AlertEngine.ticks map].
    destruct (tick_edge mem r t fleet Hnd Hin Hids Ht) as [Hmem ->].
    unfold AlertEngine.rising_edge. rewrite Hfires, bool_decide_eq_true_2 by exact Hprev.
    cbn [andb]. f_equal.
    rewrite (ticks_while_fired _ (truck_id t) r fleets Hnd Hin Hfleets).
    + cbn [length] in Hlen. injection Hlen as ->. reflexivity.
    + unfold AlertEngine.fired_before. rewrite Hmem. apply elem_of_fired_now. auto.
Qed.

End EdgeTriggering.

(** * Properties of what is drawn from the state *)

Section ViewProperties.

Variable Date_parse : string → option Z.

(** ** Ages *)

Lemma ago_of_diff_ranges (diff : Z) :
  match ago_of_diff diff with
  | JustNow => (diff < 10)%Z
  | SecondsAgo n => n = diff ∧ (10 <= n <= 59)%Z
  | MinutesAgo n => (1 <= n <= 59)%Z ∧ (60 * n <= diff < 60 * (n + 1))%Z
  | HoursAgo n => (1 <= n <= 23)%Z ∧ (3600 * n <= diff < 3600 * (n + 1))%Z
  | DaysAgo n => (1 <= n)%Z ∧ (86400 * n <= diff < 86400 * (n + 1))%Z
  | DaysAgoNaN => False
  end.
Proof.
  unfold ago_of_diff.
  destruct (Z.ltb_spec diff 10); [assumption|].
  destruct (Z.ltb_spec diff 60); [lia|].
  destruct (Z.ltb_spec diff 3600).
  { pose proof (Z.div_mod diff 60 ltac:(lia)).
    pose proof (Z.mod_pos_bound diff 60 ltac:(lia)). lia. }
  destruct (Z.ltb_spec diff 86400).
  { pose proof (Z.div_mod diff 3600 ltac:(lia)).
    pose proof (Z.mod_pos_bound diff 3600 ltac:(lia)). lia. }
  pose proof (Z.div_mod diff 86400 ltac:(lia)).
  pose proof (Z.mod_pos_bound diff 86400 ltac:(lia)). lia.
Qed.

(** X5. [timeAgo] returns the text [Just now] for an absent or empty
    timestamp and for one less than 10 seconds old, one in the future
    included; the text [NaN days ago] for one that cannot be parsed; and
    otherwise the age in whole units, rounded down, with the count within
    its unit: 10 to 59 seconds, 1 to 59 minutes, 1 to 23 hours, 1 day or
    more. *)
Theorem timeAgo_ranges (now : Z) :
  ago_text (timeAgo Date_parse now None) = "Just now"
  ∧ ago_text (timeAgo Date_parse now (Some "")) = "Just now"
  ∧ (∀ ts, ts ≠ "" → Date_parse ts = None →
       timeAgo Date_parse now (Some ts) = DaysAgoNaN
       ∧ ago_text (timeAgo Date_parse now (Some ts)) = "NaN days ago")
  ∧ (∀ ts then_, ts ≠ "" → Date_parse ts = Some then_ →
       let diff := ((now - then_) / 1000)%Z in
       match timeAgo Date_parse now (Some ts) with
       | JustNow => (now - then_ < 10000)%Z
       | SecondsAgo n => n = diff ∧ (10 <= n <= 59)%Z
       | MinutesAgo n => (1 <= n <= 59)%Z ∧ (60 * n <= diff < 60 * (n + 1))%Z
       | HoursAgo n => (1 <= n <= 23)%Z ∧ (3600 * n <= diff < 3600 * (n + 1))%Z
       | DaysAgo n => (1 <= n)%Z ∧ (86400 * n <= diff < 86400 * (n + 1))%Z
       | DaysAgoNaN => False
       end).
Proof.
  split; [reflexivity|]. split; [reflexivity|]. split.
  - intros ts Hts Hnone. unfold timeAgo.
    apply String.eqb_neq in Hts. rewrite Hts, Hnone. split; reflexivity.
  - intros ts then_ Hts Hsome diff. unfold timeAgo.
    apply String.eqb_neq in Hts. rewrite Hts, Hsome. fold diff.
    pose proof (ago_of_diff_ranges diff) as Hr.
    destruct (ago_of_diff diff); try exact Hr.
    subst diff.
    pose proof (Z.div_mod (now - then_) 1000 ltac:(lia)).
    pose proof (Z.mod_pos_bound (now - then_) 1000 ltac:(lia)). lia.
Qed.

(** ** System logs *)

Lemma limit_logs_take (fuel : nat) (entries : list LogEntry) :
  length entries - 50 ≤ fuel → limit_logs fuel entries = take 50 entries.
Proof.
  revert entries. induction fuel as [|fuel IH]; intros entries Hfuel; cbn [limit_logs].
  - symmetry. apply take_ge. lia.
  - destruct (Nat.ltb_spec 50 (length entries)) as [Hover|Hfit].
    + rewrite IH.
      * apply firstn_removelast. exact Hover.
      * rewrite removelast_firstn_len, length_take. lia.
    + symmetry. apply take_ge. exact Hfit.
Qed.

Lemma take_app_take {A} (n : nat) (xs ys : list A) :
  take n (xs ++ take n ys) = take n (xs ++ ys).
Proof.
  rewrite !take_app. f_equal.
  rewrite take_take. f_equal. lia.
Qed.

Lemma addSystemLog_take (time level msg : string) (entries : list LogEntry) :
  addSystemLog time level msg (Some entries)
  = Some (take 50 ({| log_time := time; log_level_class := log_level_class_of level;
                      log_level_text := toUpperCase level; log_message := msg |} :: entries)).
Proof. unfold addSystemLog. rewrite limit_logs_take by lia. reflexivity. Qed.

(** X6. Whatever the log held, after [addSystemLog] it holds at most 50
    entries: the new one on top, then the ones it held, oldest dropped.
    The class of the entry is the level itself for [error], [warn],
    [success] and [info], and [info] for any other level; its label is the
    level in upper case. A page without the log element is left alone. *)
Theorem system_log_capped (time level msg : string) (entries : list LogEntry) :
  addSystemLog time level msg None = None
  ∧ ∃ entry rest,
      addSystemLog time level msg (Some entries) = Some (entry :: rest)
      ∧ log_message entry = msg
      ∧ log_time entry = time
      ∧ log_level_text entry = toUpperCase level
      ∧ (level ∈ ["error"; "warn"; "success"; "info"] → log_level_class entry = level)
      ∧ log_level_class entry ∈ ["error"; "warn"; "success"; "info"]
      ∧ (level ∉ ["error"; "warn"; "success"] → log_level_class entry = "info")
      ∧ rest = take 49 entries
      ∧ length (entry :: rest) ≤ 50.
Proof.
  split; [reflexivity|].
  eexists _, _. rewrite addSystemLog_take. cbn [take].
  split; [reflexivity|]. split; [reflexivity|]. split; [reflexivity|].
  split; [reflexivity|]. cbn [log_level_class].
  split; [|split; [|split; [|split; [reflexivity|]]]].
  - intros Hlevel. unfold log_level_class_of.
    repeat (apply elem_of_cons in Hlevel as [->|Hlevel]; [reflexivity|]).
    apply elem_of_nil in Hlevel. contradiction.
  - unfold log_level_class_of.
    destruct (String.eqb level "error"); [set_solver|].
    destruct (String.eqb level "warn"); [set_solver|].
    destruct (String.eqb level "success"); set_solver.
  - intros Hother. unfold log_level_class_of.
    destruct (String.eqb_spec level "error") as [->|_]; [set_solver|].
    destruct (String.eqb_spec level "warn") as [->|_]; [set_solver|].
    destruct (String.eqb_spec level "success") as [->|_]; [set_solver|reflexivity].
  - cbn [length]. rewrite length_take. lia.
Qed.

(** X7. The alerts of a stream update are logged one by one on top, so
    the log then reads: the new alerts, the last to arrive first, then
    what the log held, all within 50 entries. *)
Theorem new_alerts_logged_newest_first
    (time : string) (new : list Alert) (entries : list LogEntry) :
  log_new_alerts time new (Some entries)
  = Some (match new with
          | [] => entries
          | _ => take 50 (rev (map (alert_log_entry time) new) ++ entries)
          end).
Proof.
  destruct new as [|a0 new0]; [reflexivity|].
  unfold log_new_alerts. cbn [fold_left]. rewrite addSystemLog_take.
  fold (alert_log_entry time a0).
  cbn [map rev]. rewrite <- app_assoc. cbn [app].
  generalize (alert_log_entry time a0 :: entries). clear entries a0.
  induction new0 as [|a new IH]; intros entries.
  - reflexivity.
  - cbn [fold_left]. rewrite addSystemLog_take. fold (alert_log_entry time a).
    change (alert_log_entry time a :: take 50 entries)
      with ([alert_log_entry time a] ++ take 50 entries).
    rewrite take_app_take. cbn [app]. rewrite IH.
    cbn [map rev]. rewrite <- app_assoc. reflexivity.
Qed.

(** ** Alert panels *)

Lemma rev_slice_last {A} (n : nat) (l : list A) :
  rev (JS.slice_last n l) = take n (rev l).
Proof. unfold JS.slice_last. symmetry. apply firstn_rev. Qed.

Lemma take_prefix_take {A} (n m : nat) (l : list A) :
  n ≤ m → take n l `prefix_of` take m l.
Proof.
  intros Hle. replace (take n l) with (take n (take m l)).
  - apply prefix_take.
  - rewrite take_take. f_equal. lia.
Qed.

(** X8. After [updateDashboardAlerts] and [updateAlertsPage] on a list that
    is not empty, the dashboard shows the 8 most recent alerts and the
    alerts page the 20 most recent, each newest first, so the dashboard
    is the top of the page; the label counts the dashboard's items and
    the vehicle count is the size of the truck table. On an empty list
    both return at once: the panels keep what they showed. *)
Theorem alert_panels_show_newest (now : Z) (st : Client) (view : AlertViews) :
  let newest_first := rev (alertsList st) in
  let view' := updateAlertsPage Date_parse now st (updateDashboardAlerts Date_parse now st view) in
  (alertsList st = [] → view' = view)
  ∧ (alertsList st ≠ [] →
     dashboard_alerts view' = map (alert_item Date_parse now) (take 8 newest_first)
     ∧ alerts_count_label view' = (pretty (min 8 (length (alertsList st))) ++ " new")%string
     ∧ alerts_full_list view' = map (alert_card Date_parse now) (take 20 newest_first)
     ∧ alerts_vehicle_count view' = size (truckData st)
     ∧ take 8 newest_first `prefix_of` take 20 newest_first).
Proof.
  intros newest_first view'. subst view'.
  unfold updateAlertsPage, updateDashboardAlerts. rewrite !rev_slice_last.
  fold newest_first. split.
  - intros Hnil. subst newest_first. rewrite Hnil. reflexivity.
  - intros Hne.
    assert (Hlen : 0 < length (alertsList st)) by (destruct (alertsList st); [congruence|cbn; lia]).
    assert (Hrev : length newest_first = length (alertsList st)) by apply length_rev.
    assert (H8 : (length (take 8 newest_first) =? 0) = false).
    { apply Nat.eqb_neq. rewrite length_take. lia. }
    assert (H20 : (length (take 20 newest_first) =? 0) = false).
    { apply Nat.eqb_neq. rewrite length_take. lia. }
    rewrite H8, H20. cbn.
    split; [reflexivity|]. split; [rewrite length_take, Hrev; reflexivity|].
    split; [reflexivity|]. split; [reflexivity|].
    apply take_prefix_take. lia.
Qed.

(** X9. The three places that draw an alert's severity agree: [critical]
    gets the critical badge, the error icon and an error log line;
    [warning] the medium badge, the warning icon and a warn line; every
    other severity the low badge, the info icon and an info line. The
    class of the log line is always the level it was logged at. *)
Theorem severity_rendering_agrees (sev : string) :
  ((sev = "critical"
    ∧ severity_badge sev = "critical" ∧ severity_icon sev = "error"
    ∧ severity_log_level sev = "error")
   ∨ (sev = "warning"
      ∧ severity_badge sev = "medium" ∧ severity_icon sev = "warning"
      ∧ severity_log_level sev = "warn")
   ∨ (sev ≠ "critical" ∧ sev ≠ "warning"
      ∧ severity_badge sev = "low" ∧ severity_icon sev = "info"
      ∧ severity_log_level sev = "info"))
  ∧ log_level_class_of (severity_log_level sev) = severity_log_level sev.
Proof.
  unfold severity_badge, severity_icon, severity_log_level.
  destruct (String.eqb_spec sev "critical") as [->|Hc].
  { split; [left; repeat split|reflexivity]. }
  destruct (String.eqb_spec sev "warning") as [->|Hw].
  { split; [right; left; repeat split|reflexivity]. }
  split; [right; right; repeat split; assumption|reflexivity].
Qed.

End ViewProperties.

(** * Properties of the page as a whole *)

Section PageProperties.

Variable toLocaleTimeString : string → string.

Local Abbreviation ws_onmessage := (ws_onmessage toLocaleTimeString).
Local Abbreviation page_step := (page_step toLocaleTimeString).
Local Abbreviation page_run := (page_run toLocaleTimeString).

(** ** The table and the markers *)

Lemma upsert_trucks_keyed (ts : list Truck) (m : gmap string Truck) :
  keyed_by_id m → keyed_by_id (upsert_trucks ts m).
Proof.
  revert m. induction ts as [|t ts IH]; intros m Hm; [exact Hm|].
  change (upsert_trucks (t :: ts) m) with (upsert_trucks ts (<[truck_id t := t]> m)).
  apply IH. intros k t' Hk.
  destruct (decide (truck_id t = k)) as [<-|Hne].
  - rewrite lookup_insert_eq in Hk. congruence.
  - rewrite lookup_insert_ne in Hk by exact Hne. apply Hm, Hk.
Qed.

Lemma upsert_markers_fmap (ts : list Truck) (m : gmap string Truck) :
  fold_left (λ acc t, <[truck_id t := getMarkerColor (risk_level t)]> acc) ts (marker_color <$> m)
  = marker_color <$> upsert_trucks ts m.
Proof.
  revert m. induction ts as [|t ts IH]; intros m; [reflexivity|].
  change (upsert_trucks (t :: ts) m) with (upsert_trucks ts (<[truck_id t := t]> m)).
  cbn [fold_left]. rewrite <- IH, fmap_insert. reflexivity.
Qed.

(** A frame either leaves the table and the markers alone or upserts the
    trucks array it carries into both. *)
Lemma ws_onmessage_tables (now : Clock) (ev : Parsed) (st : Client) :
  let st' := caught (ws_onmessage now ev st) in
  selectedTruckId st' = selectedTruckId st
  ∧ ((truckData st' = truckData st ∧ mapMarkers st' = mapMarkers st)
     ∨ ∃ ts, truckData st' = upsert_trucks ts (truckData st)
             ∧ mapMarkers st'
               = fold_left (λ acc t, <[truck_id t := getMarkerColor (risk_level t)]> acc)
                           ts (mapMarkers st)).
Proof.
  destruct ev as [| |d]; [split; [|left; split]; reflexivity ..|].
  change (ws_onmessage now (JsonValue d) st)
    with (Normal (caught (handleMessage toLocaleTimeString now d st))).
  unfold handleMessage. cbn [caught].
  destruct (JS.strict_eq (type d) "initial_state").
  { unfold handleInitialState. destruct (trucks d) as [ts|]; cbn [caught].
    - split; [|right; exists ts; split];
        unfold updateCharts, updateAnalyticsStats, updateRiskGauge, updateMapMarkers;
        destruct (fleet_risk d); reflexivity.
    - split; [|left; split]; reflexivity. }
  destruct (JS.strict_eq (type d) "stream_update").
  { unfold handleStreamUpdate. destruct (trucks d) as [ts|]; cbn [caught].
    - split; [|right; exists ts; split];
        unfold updateCharts, updateAnalyticsStats, updateRiskGauge, updateMapMarkers,
          updateTruckDetail, add_new_alerts;
        repeat match goal with |- context [match ?x with _ => _ end] => destruct x end;
        reflexivity.
    - split; [|left; split]; reflexivity. }
  destruct (JS.strict_eq (type d) "ai_response").
  { cbn [caught]. unfold handleAIResponse.
    destruct (token_usage d); (split; [|left; split]; reflexivity). }
  destruct (JS.strict_eq (type d) "pong"); (split; [|left; split]; reflexivity).
Qed.

Lemma selectTruck_tables (truckId : string) (st : Client) :
  truckData (selectTruck truckId st) = truckData st
  ∧ mapMarkers (selectTruck truckId st) = mapMarkers st
  ∧ selectedTruckId (selectTruck truckId st) = Some truckId.
Proof.
  unfold selectTruck. destruct (truckData _ !! truckId); repeat split; reflexivity.
Qed.

Lemma page_run_cons (e : PageEvent) (es : list PageEvent) (st : Client) :
  page_run (e :: es) st = page_run es (page_step st e).
Proof. reflexivity. Qed.

Lemma page_run_snoc (es : list PageEvent) (e : PageEvent) (st : Client) :
  page_run (es ++ [e]) st = page_step (page_run es st) e.
Proof. exact (fold_left_app page_step es [e] st). Qed.

Lemma page_step_inbound (now : Clock) (ev : Parsed) (st : Client) :
  page_step st (Inbound now ev) = caught (ws_onmessage now ev st).
Proof. reflexivity. Qed.

Lemma page_step_select (truckId : string) (st : Client) :
  page_step st (SelectTruck truckId) = selectTruck truckId st.
Proof. reflexivity. Qed.

(** What holds of the two tables in every state the page can reach. *)
Lemma page_run_tables (es : list PageEvent) (st : Client) :
  keyed_by_id (truckData st) →
  mapMarkers st = marker_color <$> truckData st →
  keyed_by_id (truckData (page_run es st))
  ∧ mapMarkers (page_run es st) = marker_color <$> truckData (page_run es st).
Proof.
  revert st. induction es as [|e es IH]; intros st Hkey Hmark; [auto|].
  rewrite page_run_cons. apply IH; destruct e as [now ev|truckId];
    rewrite ?page_step_inbound, ?page_step_select.
  - destruct (ws_onmessage_tables now ev st) as [_ [[-> _]|(ts & -> & _)]];
      [exact Hkey|apply upsert_trucks_keyed, Hkey].
  - destruct (selectTruck_tables truckId st) as (-> & _ & _). exact Hkey.
  - destruct (ws_onmessage_tables now ev st) as [_ [[-> ->]|(ts & -> & ->)]];
      [exact Hmark|].
    rewrite Hmark. apply upsert_markers_fmap.
  - destruct (selectTruck_tables truckId st) as (-> & -> & _). exact Hmark.
Qed.

(** The page loads with both tables empty. *)
Lemma page_tables_from_load (es : list PageEvent) (page : Dom) :
  let st := page_run es (initial_client page) in
  keyed_by_id (truckData st) ∧ mapMarkers st = marker_color <$> truckData st.
Proof.
  apply (page_run_tables es (initial_client page)).
  - intros k t Hk. cbn in Hk. rewrite lookup_empty in Hk. discriminate.
  - cbn. rewrite fmap_empty. reflexivity.
Qed.

(** X10. In every state the page reaches from its load, by frames and by
    truck selections in any order, every record of [truckData] sits under
    its own [truck_id]. *)
Theorem truck_table_keyed_by_id (es : list PageEvent) (page : Dom) :
  keyed_by_id (truckData (page_run es (initial_client page))).
Proof. exact (proj1 (page_tables_from_load es page)). Qed.

(** X11. In every state the page reaches from its load, the map has a
    marker for exactly the trucks of the table, each in the colour of the
    risk level the table now holds for it; so the markers are as many as
    the trucks. *)
Theorem markers_follow_truck_table (es : list PageEvent) (page : Dom) :
  let st := page_run es (initial_client page) in
  (∀ id, mapMarkers st !! id = (λ t, getMarkerColor (risk_level t)) <$> truckData st !! id)
  ∧ dom (mapMarkers st) = dom (truckData st)
  ∧ size (mapMarkers st) = size (truckData st).
Proof.
  intros st.
  assert (Hmark : mapMarkers st = marker_color <$> truckData st).
  { exact (proj2 (page_tables_from_load es page)). }
  rewrite Hmark. split; [|split].
  - intros id. apply lookup_fmap.
  - apply dom_fmap_L.
  - apply map_size_fmap.
Qed.

(** ** The fleet list *)

Lemma filter_map_length {A B} (p : B → bool) (f : A → B) (l : list A) :
  length (List.filter p (map f l)) = length (List.filter (λ x, p (f x)) l).
Proof.
  induction l as [|x l IH]; [reflexivity|].
  cbn [map List.filter]. destruct (p (f x)); cbn [length]; rewrite IH; reflexivity.
Qed.

Lemma keyed_list_count (id : string) (l : list (string * Truck)) :
  NoDup l.*1 →
  (∀ k t, (k, t) ∈ l → truck_id t = k) →
  length (List.filter (λ t, String.eqb id (truck_id t)) l.*2)
  = if decide (id ∈ l.*1) then 1 else 0.
Proof.
  induction l as [|[k t] l IH]; intros Hnd Hkey; [reflexivity|].
  cbn [fmap list_fmap fst snd] in *. apply NoDup_cons in Hnd as [Hfresh Hnd].
  assert (Hk : truck_id t = k) by (apply Hkey; left).
  specialize (IH Hnd (λ k' t' Hin, Hkey k' t' (list_elem_of_further _ _ _ Hin))).
  cbn [List.filter]. rewrite Hk.
  destruct (String.eqb_spec id k) as [->|Hne].
  - cbn [length]. rewrite IH.
    rewrite decide_False by exact Hfresh.
    rewrite decide_True by left. reflexivity.
  - rewrite IH. destruct (decide (id ∈ l.*1)) as [Hin|Hout].
    + rewrite decide_True by (right; exact Hin). reflexivity.
    + rewrite decide_False; [reflexivity|].
      intros [->|Hin]%elem_of_cons; contradiction.
Qed.

(** X12. In every state the page reaches from its load, [updateFleetList]
    draws one item per truck of the table, and marks as active exactly
    one item when the selected id is in the table and none otherwise
    (nothing selected, or an id the table does not hold). A page without
    the list element is left alone. *)
Theorem fleet_list_marks_selected
    (es : list PageEvent) (page : Dom) (shown : list FleetItem) :
  let st := page_run es (initial_client page) in
  updateFleetList st None = None
  ∧ ∃ items,
      updateFleetList st (Some shown) = Some items
      ∧ length items = size (truckData st)
      ∧ length (List.filter fleet_active items)
        = match selectedTruckId st with
          | Some id => if decide (id ∈ dom (truckData st)) then 1 else 0
          | None => 0
          end.
Proof.
  intros st. split; [reflexivity|].
  eexists. split; [reflexivity|]. split.
  - unfold Object_values. rewrite length_map, length_fmap. apply length_map_to_list.
  - rewrite filter_map_length. cbn [fleet_active fleet_item].
    destruct (selectedTruckId st) as [id|]; cbn [JS.strict_eq].
    + unfold Object_values. rewrite keyed_list_count.
      * destruct (decide (id ∈ dom (truckData st))) as [Hin|Hout].
        -- rewrite decide_True; [reflexivity|].
           apply elem_of_dom in Hin as [t Ht].
           apply list_elem_of_fmap. exists (id, t). split; [reflexivity|].
           apply elem_of_map_to_list, Ht.
        -- rewrite decide_False; [reflexivity|].
           intros ([k t] & -> & Hin)%list_elem_of_fmap. apply Hout.
           apply elem_of_dom. exists t. apply elem_of_map_to_list, Hin.
      * apply NoDup_fst_map_to_list.
      * intros k t Hin%elem_of_map_to_list.
        exact (proj1 (page_tables_from_load es page) k t Hin).
    + clear. induction (Object_values (truckData st)); [reflexivity|assumption].
Qed.

(** ** The selected truck *)

(** X13. After a truck is selected and a stream update is then applied,
    the selection is still that id, and the temperature bar of the detail
    panel has the colour of the record the table holds for it after the
    update, whether the truck was in the table when it was selected or
    came with the update; when the table still has no such truck the bar
    is as it was before the selection. *)
Theorem detail_follows_selected_truck
    (truckId : string) (now : Clock) (d : Message) (st : Client) :
  truckId ≠ "" →
  is_stream_update d = true →
  let st' := caught (ws_onmessage now (JsonValue d) (selectTruck truckId st)) in
  selectedTruckId st' = Some truckId
  ∧ (∀ truck, truckData st' !! truckId = Some truck →
       detail_temp_bar (document st')
       = ("progress-fill " ++ temp_bar_color (temperature truck))%string)
  ∧ (truckData st' !! truckId = None →
       detail_temp_bar (document st') = detail_temp_bar (document st)).
Proof.
  intros Hid Hd st'.
  destruct (ws_onmessage_stream_update toLocaleTimeString now d (selectTruck truckId st) Hd)
    as [Hstep [ts Hts]].
  subst st'. rewrite Hstep. clear Hstep.
  destruct (selectTruck_tables truckId st) as (Htab & _ & Hsel).
  apply String.eqb_neq in Hid.
  unfold handleStreamUpdate. rewrite Hts. cbn [caught].
  set (s5 := updateAnalyticsStats d _).
  assert (Hsel5 : selectedTruckId s5 = Some truckId).
  { rewrite <- Hsel. subst s5.
    unfold updateAnalyticsStats, updateCharts, updateRiskGauge, updateMapMarkers, add_new_alerts.
    repeat match goal with |- context [match ?x with _ => _ end] => destruct x end;
      reflexivity. }
  assert (Htab5 : truckData s5 = upsert_trucks ts (truckData st)).
  { rewrite <- Htab. subst s5.
    unfold updateAnalyticsStats, updateCharts, updateRiskGauge, updateMapMarkers, add_new_alerts.
    repeat match goal with |- context [match ?x with _ => _ end] => destruct x end;
      reflexivity. }
  assert (Hbar5 : truckData s5 !! truckId = None →
                  detail_temp_bar (document s5) = detail_temp_bar (document st)).
  { intros Hnone. rewrite Htab5, upsert_trucks_union in Hnone.
    apply lookup_union_None in Hnone as [_ Hnone].
    subst s5.
    transitivity (detail_temp_bar (document (selectTruck truckId st))).
    - unfold updateAnalyticsStats, updateCharts, updateRiskGauge, updateMapMarkers,
        add_new_alerts.
      repeat match goal with |- context [match ?x with _ => _ end] => destruct x end;
        reflexivity.
    - unfold selectTruck. cbn. rewrite Hnone. reflexivity. }
  rewrite Hsel5, Hid.
  destruct (truckData s5 !! truckId) as [truck|] eqn:Hlook.
  - split; [exact Hsel5|]. split.
    + intros truck' Hlook'. change (truckData s5 !! truckId = Some truck') in Hlook'.
      rewrite Hlook in Hlook'. injection Hlook' as <-. reflexivity.
    + intros Hnone. change (truckData s5 !! truckId = None) in Hnone. congruence.
  - split; [exact Hsel5|]. split.
    + intros truck' Hlook'. change (truckData s5 !! truckId = Some truck') in Hlook'.
      congruence.
    + intros _. change (detail_temp_bar (document s5) = detail_temp_bar (document st)).
      apply Hbar5. reflexivity.
Qed.

End PageProperties.

(** * Properties of the bars, the animation and the settings *)

(** ** Bars *)

Lemma min_100_le (x : Q) : (min_100 x <= 100)%Q.
Proof.
  unfold min_100. destruct (Qle_bool x 100) eqn:Hle.
  - apply Qle_bool_iff, Hle.
  - apply Qle_refl.
Qed.

Lemma min_100_id (x : Q) : (x <= 100)%Q → min_100 x = x.
Proof. intros Hle. unfold min_100. apply Qle_bool_iff in Hle. rewrite Hle. reflexivity. Qed.

(** X14. The temperature bar of the detail panel is cyan exactly for the
    trucks the doughnut counts as compliant, red exactly above 38 degrees
    and yellow exactly below 28: a truck in the warning or the critical
    band is never cyan, and the bar does not tell the two bands apart. A
    warning temperature above 38 is red as a critical one above 42 is,
    and a critical temperature below 25 is yellow as a warning one below
    28 is. *)
Theorem temp_bar_matches_bands (t : Truck) :
  (temp_bar_color (temperature t) = "cyan" ↔ temp_compliant t = true)
  ∧ (temp_bar_color (temperature t) = "red" ↔ (38 < temperature t)%Q)
  ∧ (temp_bar_color (temperature t) = "yellow" ↔ (temperature t < 28)%Q)
  ∧ (temp_warning t = true ∨ temp_critical t = true
     → temp_bar_color (temperature t) ≠ "cyan")
  ∧ ((38 < temperature t)%Q ∧ (temperature t <= 42)%Q →
     temp_warning t = true ∧ temp_bar_color (temperature t) = "red")
  ∧ ((42 < temperature t)%Q →
     temp_critical t = true ∧ temp_bar_color (temperature t) = "red")
  ∧ ((25 <= temperature t)%Q ∧ (temperature t < 28)%Q →
     temp_warning t = true ∧ temp_bar_color (temperature t) = "yellow")
  ∧ ((temperature t < 25)%Q →
     temp_critical t = true ∧ temp_bar_color (temperature t) = "yellow").
Proof.
  assert (Hcyan : temp_bar_color (temperature t) = "cyan" ↔ temp_compliant t = true).
  { rewrite temp_compliant_spec. unfold temp_bar_color.
    destruct (JS.gt (temperature t) 38) eqn:Hgt.
    - apply gt_spec in Hgt. split; [discriminate|intros; lra].
    - destruct (JS.lt (temperature t) 28) eqn:Hlt.
      + apply lt_spec in Hlt. split; [discriminate|intros; lra].
      + apply not_true_iff_false in Hgt, Hlt. rewrite gt_spec in Hgt. rewrite lt_spec in Hlt.
        split; [intros _; lra|reflexivity]. }
  assert (Hred : temp_bar_color (temperature t) = "red" ↔ (38 < temperature t)%Q).
  { unfold temp_bar_color. destruct (JS.gt (temperature t) 38) eqn:Hgt.
    - apply gt_spec in Hgt. tauto.
    - apply not_true_iff_false in Hgt. rewrite gt_spec in Hgt.
      destruct (JS.lt (temperature t) 28); split; (discriminate || contradiction). }
  assert (Hyellow : temp_bar_color (temperature t) = "yellow" ↔ (temperature t < 28)%Q).
  { unfold temp_bar_color. destruct (JS.gt (temperature t) 38) eqn:Hgt.
    - apply gt_spec in Hgt. split; [discriminate|intros; lra].
    - destruct (JS.lt (temperature t) 28) eqn:Hlt.
      + apply lt_spec in Hlt. tauto.
      + apply not_true_iff_false in Hlt. rewrite lt_spec in Hlt.
        split; [discriminate|contradiction]. }
  split; [exact Hcyan|]. split; [exact Hred|]. split; [exact Hyellow|].
  split; [|split; [|split; [|split]]].
  - intros Hband Hc. apply Hcyan in Hc.
    destruct (temp_band_exclusive t) as [Hb|[Hb|Hb]];
      injection Hb as H1 H2 H3; destruct Hband; congruence.
  - intros [Hlo Hhi]. split; [apply temp_warning_spec; right; split; assumption|].
    apply Hred. exact Hlo.
  - intros Hhi. split; [apply temp_critical_spec; right; exact Hhi|].
    apply Hred. lra.
  - intros [Hlo Hhi]. split; [apply temp_warning_spec; left; split; assumption|].
    apply Hyellow. exact Hhi.
  - intros Hlo. split; [apply temp_critical_spec; left; exact Hlo|].
    apply Hyellow. lra.
Qed.

(** X15. The speed, temperature and token bars are never wider than 100
    percent, and below that they are the plain ratio: of the speed to 85,
    of the temperature to 50, of [token_usage] to the token limit. The
    limit is [max_tokens] when that is present and not 0, and 10000 when
    it is absent or 0, so the bar never divides by 0; past the limit the
    token bar is 100. It is set exactly when the reply has a
    [token_usage]. *)
Theorem bars_stay_within_100 (t : Truck) (data : Message) :
  ((speed_bar_width t <= 100)%Q
   ∧ ((speed t <= 85)%Q → speed_bar_width t = (speed t / 85 * 100)%Q))
  ∧ ((temp_bar_width t <= 100)%Q
     ∧ ((temperature t <= 50)%Q → temp_bar_width t = (temperature t / 50 * 100)%Q))
  ∧ ¬ (max_tokens_or_default data == 0)%Q
  ∧ (max_tokens data = None ∨ max_tokens data = Some 0%Q
     → max_tokens_or_default data = 10000%Q)
  ∧ (token_bar_width data = None ↔ token_usage data = None)
  ∧ (∀ w, token_bar_width data = Some w → (w <= 100)%Q)
  ∧ (∀ m, max_tokens data = Some m → ¬ (m == 0)%Q → max_tokens_or_default data = m)
  ∧ (∀ u, token_usage data = Some u →
       let pct := (u / max_tokens_or_default data * 100)%Q in
       token_bar_width data = Some (if Qle_bool pct 100 then pct else 100%Q)
       ∧ ((pct <= 100)%Q → token_bar_width data = Some pct)
       ∧ ((100 < pct)%Q → token_bar_width data = Some 100%Q)).
Proof.
  split; [split; [apply min_100_le|]|split; [split; [apply min_100_le|]|]].
  - intros Hle. apply min_100_id. unfold Qdiv.
    change (/ 85)%Q with (1 # 85)%Q. lra.
  - intros Hle. apply min_100_id. unfold Qdiv.
    change (/ 50)%Q with (1 # 50)%Q. lra.
  - split; [|split; [|split]].
    + unfold max_tokens_or_default. destruct (max_tokens data) as [m|].
      * destruct (Qeq_bool m 0) eqn:Hm; [discriminate|].
        apply Qeq_bool_neq in Hm. exact Hm.
      * discriminate.
    + unfold max_tokens_or_default. intros [->| ->]; reflexivity.
    + unfold token_bar_width. destruct (token_usage data); split; (discriminate || reflexivity).
    + split; [|split].
      * intros w. unfold token_bar_width. destruct (token_usage data); [|discriminate].
        intros [= <-]. apply min_100_le.
      * intros m Hm Hne. unfold max_tokens_or_default. rewrite Hm.
        destruct (Qeq_bool m 0) eqn:Hz; [|reflexivity].
        apply Qeq_bool_iff in Hz. contradiction.
      * intros u Hu pct. unfold token_bar_width. rewrite Hu. fold pct.
        split; [reflexivity|]. split.
        -- intros Hle. rewrite min_100_id by exact Hle. reflexivity.
        -- intros Hgt. unfold min_100.
           destruct (Qle_bool pct 100) eqn:Hle; [|reflexivity].
           apply Qle_bool_iff in Hle. lra.
Qed.

(** ** The KPI animation *)

Lemma Math_round_Z (z : Z) : JS.Math_round (inject_Z z) = z.
Proof.
  unfold JS.Math_round, Qfloor, inject_Z, Qplus. cbn [Qnum Qden].
  change (Z.pos (1 * 2)) with 2%Z.
  symmetry. apply (Z.div_unique _ _ _ 1); lia.
Qed.

Lemma Math_round_mono (x y : Q) : (x <= y)%Q → (JS.Math_round x <= JS.Math_round y)%Z.
Proof. intros Hle. unfold JS.Math_round. apply Qfloor_resp_le. lra. Qed.

(** A value between a whole number and a target rounds to a whole number
    between that number and the rounded target. *)
Lemma Math_round_towards (a : Z) (x target : Q) :
  ((inject_Z a <= x ∧ x <= target) ∨ (target <= x ∧ x <= inject_Z a))%Q →
  (Z.min a (JS.Math_round target) <= JS.Math_round x <= Z.max a (JS.Math_round target))%Z.
Proof.
  intros [[Hlo Hhi]|[Hlo Hhi]].
  - pose proof (Math_round_mono _ _ Hlo) as H1. pose proof (Math_round_mono _ _ Hhi) as H2.
    rewrite Math_round_Z in H1. lia.
  - pose proof (Math_round_mono _ _ Hlo) as H1. pose proof (Math_round_mono _ _ Hhi) as H2.
    rewrite Math_round_Z in H2. lia.
Qed.

(** X16. [animateValue] writes nothing exactly when the new value is the
    whole number [parseInt] reads from the element, so a value with a
    fraction is always drawn again. Otherwise it writes the element 15
    times: the first 14 values are whole numbers between the number read
    and the new value rounded, and the last is the new value itself, not
    rounded. For a whole new value every value written lies between the
    old and the new one; for one with a fraction the values before the
    last can pass it, by no more than the rounding: a half. *)
Theorem animateValue_frames_towards_target (current : Z) (newValue : Q) :
  (animateValue current newValue = [] ↔ (newValue == inject_Z current)%Q)
  ∧ (¬ (newValue == inject_Z current)%Q →
     let frames := animateValue current newValue in
     length frames = 15
     ∧ last frames = Some newValue
     ∧ Forall (λ f, ∃ z, f = inject_Z z
                         ∧ (Z.min current (JS.Math_round newValue) <= z
                            <= Z.max current (JS.Math_round newValue))%Z)
              (take 14 frames))
  ∧ (∀ target : Z, newValue = inject_Z target → current ≠ target →
     Forall (λ f, ∃ z, f = inject_Z z
                       ∧ (Z.min current target <= z <= Z.max current target)%Z)
            (animateValue current newValue))
  ∧ (newValue - (1 # 2) < inject_Z (JS.Math_round newValue)
     ∧ inject_Z (JS.Math_round newValue) <= newValue + (1 # 2))%Q.
Proof.
  assert (Hframes : ¬ (newValue == inject_Z current)%Q →
     length (animateValue current newValue) = 15
     ∧ last (animateValue current newValue) = Some newValue
     ∧ Forall (λ f, ∃ z, f = inject_Z z
                         ∧ (Z.min current (JS.Math_round newValue) <= z
                            <= Z.max current (JS.Math_round newValue))%Z)
              (take 14 (animateValue current newValue))).
  { intros Hne. unfold animateValue.
    destruct (Qeq_bool (inject_Z current) newValue) eqn:Heq.
    { apply Qeq_bool_iff in Heq. exfalso. apply Hne. symmetry. exact Heq. }
    cbn [seq map Nat.leb firstn]. split; [reflexivity|]. split; [reflexivity|].
    assert (Hcase : (inject_Z current <= newValue)%Q ∨ (newValue <= inject_Z current)%Q).
    { destruct (Qlt_le_dec newValue (inject_Z current)) as [Hlt|Hle];
        [right; apply Qlt_le_weak, Hlt|left; exact Hle]. }
    repeat (apply List.Forall_cons; [|]); try apply List.Forall_nil.
    all: eexists; split; [reflexivity|].
    all: apply Math_round_towards.
    all: repeat match goal with
                | |- context [inject_Z (Z.of_nat ?k)] =>
                    let q := eval vm_compute in (inject_Z (Z.of_nat k)) in
                    change (inject_Z (Z.of_nat k)) with q
                end;
         unfold Qdiv; change (/ 15)%Q with (1 # 15)%Q;
         destruct Hcase as [Hle|Hle]; [left|right]; split; lra. }
  split; [|split; [|split]]; cycle 3.
  { unfold JS.Math_round.
    pose proof (Qfloor_le (newValue + (1 # 2))) as Hlo.
    pose proof (Qlt_floor (newValue + (1 # 2))) as Hhi.
    rewrite inject_Z_plus in Hhi. change (inject_Z 1) with 1%Q in Hhi.
    split; lra. }
  - split.
    + intros Hnil. destruct (Qeq_dec newValue (inject_Z current)) as [Heq|Hne]; [exact Heq|].
      destruct (Hframes Hne) as [Hlen _]. rewrite Hnil in Hlen. discriminate.
    + intros Heq. unfold animateValue.
      rewrite (proj2 (Qeq_bool_iff _ _) (Qeq_sym _ _ Heq)). reflexivity.
  - exact Hframes.
  - intros target -> Hne.
    assert (Hq : ¬ (inject_Z target == inject_Z current)%Q).
    { intros Heq. apply (proj1 (inject_Z_injective _ _)) in Heq. congruence. }
    destruct (Hframes Hq) as (Hlen & Hlast & Hall).
    rewrite Math_round_Z in Hall.
    rewrite <- (take_drop 14 (animateValue current (inject_Z target))).
    apply Forall_app. split; [exact Hall|].
    revert Hlen Hlast. generalize (animateValue current (inject_Z target)) as fs.
    intros fs Hlen Hlast.
    do 15 (destruct fs as [|? fs]; [discriminate|]).
    destruct fs; [|discriminate].
    cbn in Hlast. injection Hlast as ->. cbn [drop].
    apply List.Forall_cons; [|apply List.Forall_nil].
    exists target. split; [reflexivity|lia].
Qed.

(** ** Settings *)

(** X17. Loading keeps the URL of the socket usable: a saved URL that is
    absent or empty leaves the URL as it was, so a page whose URL is not
    empty never gets an empty one; nothing saved changes nothing; and what
    [saveUserSettings] stored comes back as it was whenever its URL is not
    empty, whereas a URL saved empty is not restored. *)
Theorem settings_survive_reload (saved : option SavedSettings) (s s0 : Settings) :
  loadSettingsFromDB None s0 = s0
  ∧ (wsUrl s0 ≠ "" → wsUrl (loadSettingsFromDB saved s0) ≠ "")
  ∧ (wsUrl s ≠ "" → loadSettingsFromDB (Some (stored s)) s0 = s)
  ∧ wsUrl (loadSettingsFromDB (Some (stored (saveSettings "" s))) s0) = wsUrl s0.
Proof.
  split; [reflexivity|]. split; [|split].
  - intros Hurl. destruct saved as [v|]; [|exact Hurl]. cbn.
    destruct (saved_wsUrl v) as [u|]; [|exact Hurl].
    destruct (String.eqb_spec u ""); assumption.
  - intros Hurl. destruct s. cbn in *.
    apply String.eqb_neq in Hurl. rewrite Hurl. reflexivity.
  - reflexivity.
Qed.

(** * Properties of the chat and of the reconnection *)

(** ** Questions and answers *)

Lemma remove_first_typing_count (c : list ChatNode) :
  typing_count (remove_first_typing c) = pred (typing_count c)
  ∧ chat_messages (remove_first_typing c) = chat_messages c.
Proof.
  unfold typing_count, chat_messages.
  induction c as [|[role content time|] c [IHn IHm]]; [split; reflexivity| |split; reflexivity].
  cbn [remove_first_typing List.filter is_typing negb]. rewrite IHn, IHm. split; reflexivity.
Qed.

Lemma chat_app (c c' : list ChatNode) :
  typing_count (c ++ c') = typing_count c + typing_count c'
  ∧ chat_messages (c ++ c') = chat_messages c ++ chat_messages c'.
Proof.
  unfold typing_count, chat_messages. rewrite !List.filter_app, length_app.
  split; reflexivity.
Qed.

(** X18. A question that is sent adds one typing indicator and clears the
    input. Whatever comes back (a reply, over the channel or over REST,
    or a failed request) removes one indicator and appends one message
    of the assistant: the count of indicators is back where it was and
    the chat has grown by the question and by the reply's text, which is
    [No response received.] for a missing or empty [response] and the
    connection notice for a failed request. *)
Theorem every_question_settles
    (now later : Clock) (ws : option ReadyState) (st : Client) (reply : Message) :
  let question := JS.trim (ai_input (document st)) in
  let chat := λ s : Client, ai_chat_messages (document s) in
  let asked := (sendAIMessage now ws st).1 in
  question ≠ "" →
  (typing_count (chat asked) = S (typing_count (chat st))
   ∧ ai_input (document asked) = "")
  ∧ (typing_count (chat (handleAIResponse later reply asked)) = typing_count (chat st)
     ∧ chat_messages (chat (handleAIResponse later reply asked))
       = chat_messages (chat st)
         ++ [ChatMessage "user" question (chat_time now);
             ChatMessage "assistant" (response_text reply) (chat_time later)])
  ∧ (typing_count (chat (fetch_then later None asked)) = typing_count (chat st)
     ∧ chat_messages (chat (fetch_then later None asked))
       = chat_messages (chat st)
         ++ [ChatMessage "user" question (chat_time now);
             ChatMessage "assistant"
               "Unable to connect to the AI service. Please ensure the backend is running."
               (chat_time later)]).
Proof.
  intros question chat asked Hq.
  assert (Hasked : chat asked
                   = (chat st ++ [ChatMessage "user" question (chat_time now)])
                     ++ [TypingIndicator]).
  { subst asked chat. unfold sendAIMessage. fold question.
    apply String.eqb_neq in Hq. rewrite Hq. destruct (ws_is_open ws); reflexivity. }
  assert (Hinput : ai_input (document asked) = "").
  { subst asked. unfold sendAIMessage. fold question.
    apply String.eqb_neq in Hq. rewrite Hq. destruct (ws_is_open ws); reflexivity. }
  assert (Hcount : typing_count (chat asked) = S (typing_count (chat st))).
  { rewrite Hasked. rewrite !(proj1 (chat_app _ _)). cbn. lia. }
  assert (Hmsgs : chat_messages (chat asked)
                  = chat_messages (chat st) ++ [ChatMessage "user" question (chat_time now)]).
  { rewrite Hasked. rewrite !(proj2 (chat_app _ _)). cbn. rewrite app_nil_r. reflexivity. }
  split; [split; assumption|].
  assert (Hanswer : ∀ text, 
            let c := remove_first_typing (chat asked) ++ [ChatMessage "assistant" text (chat_time later)] in
            typing_count c = typing_count (chat st)
            ∧ chat_messages c
              = chat_messages (chat st)
                ++ [ChatMessage "user" question (chat_time now);
                    ChatMessage "assistant" text (chat_time later)]).
  { intros text c. subst c.
    rewrite (proj1 (chat_app _ _)), (proj2 (chat_app _ _)).
    rewrite (proj1 (remove_first_typing_count _)), (proj2 (remove_first_typing_count _)).
    rewrite Hcount, Hmsgs, <- app_assoc. cbn. split; [lia|reflexivity]. }
  split.
  - replace (chat (handleAIResponse later reply asked))
      with (remove_first_typing (chat asked)
            ++ [ChatMessage "assistant" (response_text reply) (chat_time later)]).
    + apply Hanswer.
    + subst chat. unfold handleAIResponse. destruct (token_usage reply); reflexivity.
  - apply (Hanswer "Unable to connect to the AI service. Please ensure the backend is running.").
Qed.

(** ** Reconnection *)

Lemma socket_step_intervals (c : Connection) (e : SocketEvent) :
  intervals c = match reconnectTimer c with Some id => {[id]} | None => ∅ end →
  intervals (socket_step c e)
  = match reconnectTimer (socket_step c e) with Some id => {[id]} | None => ∅ end.
Proof.
  intros Hinv. destruct e as [| | |id]; cbn [socket_step].
  - unfold ws_onopen, setConnectionStatus. cbn.
    destruct (reconnectTimer c) as [id|]; cbn; rewrite Hinv; set_solver.
  - unfold ws_onclose, scheduleReconnect, setConnectionStatus. cbn.
    destruct (reconnectTimer c) as [id|] eqn:Ht; cbn; rewrite ?Ht, Hinv; set_solver.
  - exact Hinv.
  - destruct (decide (id ∈ intervals c)); exact Hinv.
Qed.

Lemma socket_run_intervals (es : list SocketEvent) (c : Connection) :
  intervals c = match reconnectTimer c with Some id => {[id]} | None => ∅ end →
  intervals (socket_run es c)
  = match reconnectTimer (socket_run es c) with Some id => {[id]} | None => ∅ end.
Proof.
  revert c. induction es as [|e es IH]; intros c Hinv; [exact Hinv|].
  apply (IH (socket_step c e)), socket_step_intervals, Hinv.
Qed.

Lemma socket_run_quiet (es : list SocketEvent) (c : Connection) :
  Forall (λ e, e ≠ OnClose) es →
  reconnectTimer c = None → intervals c = ∅ →
  reconnectTimer (socket_run es c) = None
  ∧ intervals (socket_run es c) = ∅
  ∧ sockets_opened (socket_run es c) = sockets_opened c.
Proof.
  intros Hes. revert c. induction Hes as [|e es He _ IH]; intros c Ht Hi; [auto|].
  change (socket_run (e :: es) c) with (socket_run es (socket_step c e)).
  destruct e as [| | |id]; try contradiction.
  - assert (Hstep : socket_step c OnOpen = setConnectionStatus true c).
    { cbn. unfold ws_onopen. cbn. rewrite Ht. reflexivity. }
    rewrite Hstep. apply (IH (setConnectionStatus true c)); assumption.
  - apply (IH (ws_onerror c)); assumption.
  - cbn [socket_step]. rewrite decide_False by (rewrite Hi; set_solver).
    apply IH; assumption.
Qed.

(** X19. Over every run of socket events since the page connected, the
    only interval that is running is the one [reconnectTimer] holds, so
    there is never more than one and none is left running unheld. Once a
    socket has opened there is none at all, and no further socket is
    created until one closes. *)
Theorem reconnect_interval_never_leaks (es es' : list SocketEvent) :
  let c := socket_run es first_connection in
  intervals c = match reconnectTimer c with Some id => {[id]} | None => ∅ end
  ∧ size (intervals c) ≤ 1
  ∧ (Forall (λ e, e ≠ OnClose) es' →
     let c' := socket_run (es ++ OnOpen :: es') first_connection in
     reconnectTimer c' = None ∧ intervals c' = ∅
     ∧ sockets_opened c' = sockets_opened c).
Proof.
  intros c.
  assert (Hinv : intervals c = match reconnectTimer c with Some id => {[id]} | None => ∅ end).
  { apply socket_run_intervals. reflexivity. }
  split; [exact Hinv|]. split.
  - rewrite Hinv. destruct (reconnectTimer c); [rewrite size_singleton|rewrite size_empty]; lia.
  - intros Hquiet c'. subst c'. unfold socket_run. rewrite fold_left_app.
    fold (socket_run es first_connection). fold c. cbn [fold_left].
    fold (socket_run es' (socket_step c OnOpen)).
    assert (Hopen : reconnectTimer (socket_step c OnOpen) = None
                    ∧ intervals (socket_step c OnOpen) = ∅
                    ∧ sockets_opened (socket_step c OnOpen) = sockets_opened c).
    { cbn [socket_step]. unfold ws_onopen, setConnectionStatus. cbn.
      destruct (reconnectTimer c) as [id|] eqn:Ht; cbn.
      - split; [reflexivity|]. split; [rewrite Hinv; set_solver|reflexivity].
      - split; [reflexivity|]. split; [exact Hinv|reflexivity]. }
    destruct Hopen as (Ht & Hi & Hs).
    destruct (socket_run_quiet es' (socket_step c OnOpen) Hquiet Ht Hi) as (-> & -> & ->).
    auto.
Qed.

(** * Properties of the auth service *)







(** ** Initials *)

Lemma split_spaces_letters (s : string) :
  let letters := λ ws, String.concat "" (map first_letter ws) in
  match s with
  | EmptyString => letters (split_spaces s) = "" ∧ letters (tail (split_spaces s)) = ""
  | String c s' =>
      letters (split_spaces s)
      = (if Ascii.eqb c " " then letters (split_spaces s')
         else String c (letters (tail (split_spaces s'))))
      ∧ letters (tail (split_spaces s))
        = (if Ascii.eqb c " " then letters (split_spaces s')
           else letters (tail (split_spaces s')))
  end.
Proof.
  intros letters. destruct s as [|c s']; [split; reflexivity|].
  cbn [split_spaces]. destruct (Ascii.eqb c " ").
  - split; [|reflexivity]. subst letters. cbn [map first_letter].
    destruct (split_spaces s') as [|w ws] eqn:Hs; [destruct s'; cbn in Hs |reflexivity].
    + discriminate.
    + destruct (Ascii.eqb a " "); [discriminate|destruct (split_spaces s'); discriminate].
  - destruct (split_spaces s') as [|w ws]; [split; reflexivity|].
    cbn [tail]. split; [|reflexivity]. subst letters. cbn [map first_letter].
    destruct ws; reflexivity.
Qed.

Lemma letters_no_space (s : string) :
  has_space (String.concat "" (map first_letter (split_spaces s))) = false
  ∧ has_space (String.concat "" (map first_letter (tail (split_spaces s)))) = false.
Proof.
  induction s as [|c s' [IHl IHt]]; [split; reflexivity|].
  destruct (split_spaces_letters (String c s')) as [-> ->].
  destruct (Ascii.eqb c " ") eqn:Hc; [split; assumption|].
  split; [|assumption]. cbn [has_space]. rewrite Hc. exact IHt.
Qed.

Lemma letters_empty (s : string) :
  String.concat "" (map first_letter (split_spaces s)) = "" ↔ only_spaces s = true.
Proof.
  induction s as [|c s' IH]; [split; reflexivity|].
  destruct (split_spaces_letters (String c s')) as [-> _].
  cbn [only_spaces]. destruct (Ascii.eqb c " "); [exact IH|split; discriminate].
Qed.

Lemma upper_ascii_space (c : ascii) : Ascii.eqb (upper_ascii c) " " = Ascii.eqb c " ".
Proof. destruct c as [[] [] [] [] [] [] [] []]; reflexivity. Qed.

Lemma toUpperCase_space (s : string) :
  has_space (toUpperCase s) = has_space s ∧ (toUpperCase s = "" ↔ s = "").
Proof.
  induction s as [|c s' [IH _]]; [split; [|split]; reflexivity|].
  cbn [toUpperCase has_space]. rewrite upper_ascii_space, IH.
  split; [reflexivity|split; discriminate].
Qed.

Lemma first_two (s : string) :
  String.length (String.substring 0 2 s) ≤ 2
  ∧ (has_space s = false → has_space (String.substring 0 2 s) = false)
  ∧ (String.substring 0 2 s = "" ↔ s = "").
Proof.
  assert (Hzero : ∀ r, String.substring 0 0 r = "") by (intros []; reflexivity).
  destruct s as [|a [|b r]]; cbn; rewrite ?Hzero; cbn.
  - split; [lia|]. split; [auto|reflexivity].
  - split; [lia|]. split; [auto|split; discriminate].
  - split; [lia|]. split; [|split; discriminate].
    destruct (Ascii.eqb a " "); [discriminate|]. cbn.
    destruct (Ascii.eqb b " "); [discriminate|reflexivity].
Qed.

(** X22. The initials made from a name are at most two characters and
    never contain a space, however many spaces the name has between, before
    or after its words; they are empty exactly when the name is empty or
    all spaces, and then the avatar shows [--]: the avatar is never
    blank. *)
Theorem initials_short_and_spaceless (name : string) :
  String.length (initials_of name) ≤ 2
  ∧ has_space (initials_of name) = false
  ∧ (initials_of name = "" ↔ only_spaces name = true)
  ∧ (only_spaces name = true → avatar_text (initials_of name) = "--")
  ∧ avatar_text (initials_of name) ≠ "".
Proof.
  unfold initials_of.
  set (letters := String.concat "" (map first_letter (split_spaces name))).
  destruct (first_two (toUpperCase letters)) as (Hlen & Hspace & Hempty).
  destruct (toUpperCase_space letters) as [Hup Hupe].
  assert (Hblank : String.substring 0 2 (toUpperCase letters) = "" ↔ only_spaces name = true).
  { rewrite Hempty, Hupe. apply letters_empty. }
  split; [exact Hlen|]. split; [|split; [exact Hblank|split]].
  - apply Hspace. rewrite Hup. apply letters_no_space.
  - intros Hname. apply Hblank in Hname. rewrite Hname. reflexivity.
  - unfold avatar_text.
    destruct (String.eqb_spec (String.substring 0 2 (toUpperCase letters)) "");
      [discriminate|assumption].
Qed.

(** * The theorems at concrete inputs *)


(** One update that carries 201 alerts. *)
Lemma alert_list_capped_fifo_witness :
  let ms := [(noon, stream_update_of [] (replicate 201 (alert_of "TRK-001")))] in
  length (alertsList (run label_as_is (frames ms) (initial_client blank_page))) ≤ 200.
Proof.
  intros ms.
  apply (alert_list_capped_fifo label_as_is ms (initial_client blank_page)).
  - constructor; [reflexivity|constructor].
  - simpl. lia.
Defined.

(** After 201 alerts the counter is ahead of the list. *)
Lemma total_alert_count_uncapped_witness :
  let ms := [(noon, stream_update_of [] (replicate 201 (alert_of "TRK-001")))] in
  let st' := run label_as_is (frames ms) (initial_client blank_page) in
  length (alertsList st') < totalAlertCount st'.
Proof.
  intros ms st'.
  apply (total_alert_count_uncapped label_as_is ms (initial_client blank_page)).
  - constructor; [reflexivity|constructor].
  - simpl. lia.
  - vm_compute. lia.
Defined.

(** A question typed with spaces around it, on an open socket. *)
Lemma question_goes_to_channel_or_rest_witness :
  let st := with_document (set_ai_input "  Where is TRK-001?  ") (initial_client blank_page) in
  (sendAIMessage noon (Some OPEN) st).2
  = Some (WsSend {| frame_type := "ai_question"; frame_question := "Where is TRK-001?" |}).
Proof.
  intros st.
  apply (question_goes_to_channel_or_rest label_as_is noon (Some OPEN) st).
  - vm_compute. discriminate.
  - reflexivity.
Defined.

(** A frame of a type the controller does not know. *)
Lemma unhandled_message_is_ignored_witness :
  ws_onmessage label_as_is noon (JsonValue (bare (Some "ping"))) (initial_client blank_page)
  = Normal (initial_client blank_page).
Proof.
  apply (unhandled_message_is_ignored label_as_is noon (JsonValue (bare (Some "ping")))
           (initial_client blank_page)).
  right. right. exists (bare (Some "ping")).
  split; [reflexivity|].
  right. repeat split; discriminate.
Defined.

(** The level UNKNOWN: green on the map, critical on the gauge. *)
Lemma risk_renderers_disagree_witness :
  let as_is := {| overall_score := 50; overall_level := Some "UNKNOWN"; high_risk_count := 2 |} in
  getMarkerColor (Some "UNKNOWN") = "#3cf91a"
  ∧ risk_badge_class (document (updateRiskGauge (Some as_is) (initial_client blank_page)))
    = "card-badge badge-critical"
  ∧ risk_circle_color (document (updateRiskGauge (Some as_is) (initial_client blank_page)))
    = "#ef4444".
Proof.
  intros as_is. split.
  - apply (proj1 risk_renderers_disagree (Some "UNKNOWN")); discriminate.
  - apply (proj1 (proj2 risk_renderers_disagree) as_is (initial_client blank_page));
      discriminate.
Defined.

(** One truck at 45 degrees for five ticks, nothing fired before. *)
Lemma alert_only_on_rising_edge_witness :
  let fleet := [truck_at "TRK-001" 45 (Some "HIGH"); truck_at "TRK-002" 36 (Some "LOW")] in
  map (AlertEngine.alerts_for "TRK-001" AlertEngine.TemperatureRange)
      (AlertEngine.ticks AlertEngine.threshold_fires threshold_rules ∅ (replicate 5 fleet))
  = [1; 0; 0; 0; 0].
Proof.
  intros fleet.
  apply (proj2 (alert_only_on_rising_edge AlertEngine.threshold_fires threshold_rules
                  ∅ "TRK-001" AlertEngine.TemperatureRange
                  ltac:(apply (bool_decide_unpack _); vm_compute; exact I)
                  ltac:(apply (bool_decide_unpack _); vm_compute; exact I))).
  - reflexivity.
  - assert (Hfleet : AlertEngine.rule_holds AlertEngine.threshold_fires
                       "TRK-001" AlertEngine.TemperatureRange fleet).
    { split.
      - apply (bool_decide_unpack _). vm_compute. exact I.
      - exists (truck_at "TRK-001" 45 (Some "HIGH")).
        split; [left|split; reflexivity]. }
    cbn [replicate]. repeat (apply List.Forall_cons; [exact Hfleet|]).
    apply List.Forall_nil.
  - apply (bool_decide_unpack _). vm_compute. exact I.
Defined.

(** A full eta buffer takes one more sample. *)
Lemma updateCharts_appends_within_cap_witness :
  let full := replicate 30 {| t := "11:59:00"; v := 120 |} in
  let st := with_chartData (λ c, {| eta := full; speed_buf := []; risk := [] |})
              (initial_client blank_page) in
  eta (chartData (updateCharts noon (bare None) st)) = tail full ++ [eta_sample noon st].
Proof.
  intros full st.
  apply (updateCharts_appends_within_cap noon (bare None) st).
  - simpl. lia.
  - simpl. lia.
  - simpl. lia.
  - reflexivity.
Defined.

(** Forty stream updates from page load. *)
Lemma stream_updates_keep_buffers_bounded_witness :
  let ms := replicate 40 (noon, stream_update_of [truck_at "TRK-001" 36 (Some "LOW")] []) in
  length (eta (chartData (run label_as_is (frames ms) (initial_client blank_page)))) ≤ 30.
Proof.
  intros ms.
  apply (stream_updates_keep_buffers_bounded label_as_is ms (initial_client blank_page)).
  - apply (bool_decide_unpack _). vm_compute. exact I.
  - simpl. lia.
  - simpl. lia.
  - simpl. lia.
Defined.

(** Two updates of a two-truck fleet. *)
Lemma session_holds_live_table_witness :
  let t1 := truck_at "TRK-001" 36 (Some "LOW") in
  let t2 := truck_at "TRK-002" 40 (Some "MEDIUM") in
  let t2' := truck_at "TRK-002" 43 (Some "HIGH") in
  truckData (run label_as_is
               (frames ([(noon, stream_update_of [t1; t2] [])]
                        ++ [(noon, stream_update_of [t1; t2'] [])]))
               (initial_client blank_page))
  = table_of [t1; t2'].
Proof.
  intros t1 t2 t2'.
  apply (session_holds_live_table label_as_is blank_page
           [(noon, stream_update_of [t1; t2] [])] noon (stream_update_of [t1; t2'] [])
           [t1; t2']).
  - reflexivity.
  - reflexivity.
  - constructor; [|constructor].
    intros us [= <-]. apply (bool_decide_unpack _). vm_compute. exact I.
Defined.

(** * Where the specification and the code differ *)


(** C4. A fleet of one truck at 45 degrees: no truck is compliant, and the
    doughnut is given [1; 0; 1], which adds up to 2. *)
Lemma displayed_band_counts_overcount :
  let hot := truck_at "TRK-001" 45 (Some "CRITICAL") in
  let st := run label_as_is (frames [(noon, stream_update_of [hot] [])])
                (initial_client blank_page) in
  length (Object_values (truckData st)) = 1
  ∧ temp_compliance (document st) = [1; 0; 1]
  ∧ list_sum (temp_compliance (document st)) = 2.
Proof. vm_compute. repeat split; reflexivity. Qed.

(** C5. A reply whose source is [model] is labelled RULE-BASED. *)
Lemma model_source_labelled_rule_based :
  let reply := ai_response_of "All trucks are on schedule." "model" in
  let st := caught (ws_onmessage label_as_is noon (JsonValue reply) (initial_client blank_page)) in
  source reply = Some "model"
  ∧ ai_source_badge (document st) = "RULE-BASED".
Proof. vm_compute. split; reflexivity. Qed.


(** * More theorems at concrete inputs *)

(** A timestamp 125 seconds old reads as 2 minutes ago. *)
Lemma timeAgo_ranges_witness :
  timeAgo parse_as_epoch 125000 (Some "2025-01-01T12:00:00") = MinutesAgo 2
  ∧ (1 <= 2 <= 59)%Z.
Proof.
  split; [reflexivity|].
  exact (proj1 (proj2 (proj2 (proj2 (timeAgo_ranges parse_as_epoch 125000)))
                  "2025-01-01T12:00:00" 0%Z ltac:(discriminate) eq_refl)).
Defined.

(** Ten alerts: the dashboard shows the last eight. *)
Lemma alert_panels_show_newest_witness :
  let st := with_alertsList (λ _, replicate 10 (alert_of "TRK-001")) (initial_client blank_page) in
  let view' := updateAlertsPage parse_as_epoch 0 st
                 (updateDashboardAlerts parse_as_epoch 0 st blank_views) in
  alerts_count_label view' = "8 new".
Proof.
  intros st view'.
  destruct (proj2 (alert_panels_show_newest parse_as_epoch 0 st blank_views)
              ltac:(discriminate)) as (_ & Hlabel & _).
  exact Hlabel.
Defined.

(** A truck is picked before it is in the table, and then arrives at 45
    degrees. *)
Lemma detail_follows_selected_truck_witness :
  let hot := truck_at "TRK-001" 45 (Some "CRITICAL") in
  let st' := caught (ws_onmessage label_as_is noon (JsonValue (stream_update_of [hot] []))
                       (selectTruck "TRK-001" (initial_client blank_page))) in
  detail_temp_bar (document st') = "progress-fill red".
Proof.
  intros hot st'.
  apply (proj1 (proj2 (detail_follows_selected_truck label_as_is "TRK-001" noon
                         (stream_update_of [hot] []) (initial_client blank_page)
                         ltac:(discriminate) eq_refl)) hot).
  vm_compute. reflexivity.
Defined.

(** The on-time percentage goes from 86 to 86.7: the element reads 87
    before it reads 86.7. *)
Lemma animateValue_frames_towards_target_witness :
  length (animateValue 86 (867 # 10)) = 15
  ∧ last (animateValue 86 (867 # 10)) = Some (867 # 10)%Q
  ∧ animateValue 86 (867 # 10) !! 13 = Some (inject_Z 87).
Proof.
  destruct (proj1 (proj2 (animateValue_frames_towards_target 86 (867 # 10))))
    as (Hlen & Hlast & _).
  - intros Heq. vm_compute in Heq. discriminate.
  - split; [exact Hlen|]. split; [exact Hlast|]. vm_compute. reflexivity.
Defined.

(** The default settings, saved and loaded into a page with another URL. *)
Lemma settings_survive_reload_witness :
  loadSettingsFromDB (Some (stored default_settings))
    (saveSettings "ws://fleet:9000/ws" default_settings)
  = default_settings.
Proof.
  apply (proj1 (proj2 (proj2 (settings_survive_reload None default_settings
                                (saveSettings "ws://fleet:9000/ws" default_settings))))).
  discriminate.
Defined.

(** A question on a closed socket, and its reply over REST. *)
Lemma every_question_settles_witness :
  let st := with_document (set_ai_input "Which trucks are late?") (initial_client blank_page) in
  let asked := (sendAIMessage noon None st).1 in
  typing_count (ai_chat_messages (document (handleAIResponse noon (ai_response_of "None." "gemini") asked)))
  = typing_count (ai_chat_messages (document st)).
Proof.
  intros st asked.
  destruct (every_question_settles noon noon None st (ai_response_of "None." "gemini")
              ltac:(vm_compute; discriminate)) as (_ & (Hsettled & _) & _).
  exact Hsettled.
Defined.

(** The socket closes, the interval fires twice, a socket opens, and the
    interval is gone. *)
Lemma reconnect_interval_never_leaks_witness :
  sockets_opened (socket_run ([OnClose; IntervalFires 0; IntervalFires 0]
                              ++ OnOpen :: [IntervalFires 0; OnError]) first_connection)
  = sockets_opened (socket_run [OnClose; IntervalFires 0; IntervalFires 0] first_connection).
Proof.
  destruct (proj2 (proj2 (reconnect_interval_never_leaks
                            [OnClose; IntervalFires 0; IntervalFires 0]
                            [IntervalFires 0; OnError])))
    as (_ & _ & Hsame).
  - repeat (apply List.Forall_cons; [discriminate|]). apply List.Forall_nil.
  - exact Hsame.
Defined.
